(** * Wall-clock profile event source (profile-eventsource-timerthread.cc)

    A shallow embedding of [ThreadProfileEventSource]: a background timer
    thread increments a shared tick counter and sends SIGPROF to every
    registered thread; sampled threads ask how many ticks went by since they
    last asked.

    The C++ object, the two statics ([current_tick_], [thread_last_tick]) and
    the observable effects of the system calls live in one [Process] record.
    Member functions are computations in a small state-and-abort monad:
    [RAW_LOG(FATAL, ...)] and a division by zero end the computation with
    [Fatal], everything else returns [Ok].  Results of system calls are supplied by an [OS] record, so
    every statement below quantifies over what the kernel may answer. *)

From Stdlib Require Import ZArith Lia.
From stdpp Require Import base numbers list gmap strings.

Local Open Scope Z_scope.

(** ** Machine integers *)

(** [pthread_t] is an integral handle; the code uses 0 for "no thread". *)
Abbreviation pthread_t := Z (only parsing).

(** Modelled from the spec: the type [Atomic32] of the tick variables, whose
    declaration (base/atomicops.h) is not among the sources.  The spec calls
    the counter an integer whose overflow wraps; it is taken as the signed
    32-bit integer that header declares, and [to_int32] is the
    two's-complement wrap-around into its range. *)
Definition to_int32 (x : Z) : Z := (x + 2 ^ 31) mod 2 ^ 32 - 2 ^ 31.

(** Conversion to [uint32_t]. *)
Definition to_uint32 (x : Z) : Z := x mod 2 ^ 32.

Definition INT32_MIN : Z := - 2 ^ 31.
Definition INT32_MAX : Z := 2 ^ 31 - 1.

Definition int32_range (x : Z) : Prop := INT32_MIN ≤ x ≤ INT32_MAX.

(** Linux values of the constants taken from <signal.h> and <errno.h>. *)
Definition SIGPROF : Z := 27.
Definition ESRCH : Z := 3.
Definition EINVAL : Z := 22.

(** ** Observable effects *)

Inductive severity := WARNING | FATAL.

(** What the process does to the outside world, in program order. *)
Inductive os_event :=
  | EvCreate (thread : pthread_t)                   (* pthread_create succeeded *)
  | EvJoin (thread : pthread_t)                     (* pthread_join succeeded *)
  | EvKill (thread : pthread_t) (sig : Z) (err : Z) (* pthread_kill and its result *)
  | EvLog (sev : severity) (fmt : string) (args : list Z)
  | EvSleep (usec : Z).

(** Answers of the system calls made by one member-function call (or by one
    iteration of the timer loop).  [pthread_kill] is indexed by the number of
    the delivery attempt within the pass, since a thread may exit between two
    attempts. *)
Record OS := mkOS {
  pthread_attr_init : Z;
  sched_getscheduler : Z;
  sched_get_priority_max : Z → Z;
  pthread_attr_setschedparam : Z → Z;
  pthread_create : Z * pthread_t;
  pthread_join : pthread_t → Z;
  pthread_kill : nat → pthread_t → Z → Z
}.

(** ** State *)

(** The data members of [class ThreadProfileEventSource]. *)
Record ThreadProfileEventSource := mkSource {
  thread_ : pthread_t;
  thread_stop_ : bool;
  events_enabled_ : bool;
  frequency_ : Z;
  threads_ : list pthread_t
}.

(** The instance, the static [current_tick_], the [__thread] static
    [thread_last_tick] (one cell per thread, zero-initialised, hence absent
    keys read as 0) and the effects so far. *)
Record Process := mkProcess {
  instance : ThreadProfileEventSource;
  current_tick_ : Z;
  thread_last_tick : gmap Z Z;
  trace : list os_event
}.

(** The constructor, lines 12-15. *)
Definition new_ThreadProfileEventSource (frequency : Z) : ThreadProfileEventSource :=
  {| thread_ := 0; thread_stop_ := false; events_enabled_ := false;
     frequency_ := frequency; threads_ := [] |}.

(** A process right after the event source has been constructed: both
    statics still hold their initialisers (lines 58-59). *)
Definition start_process (frequency : Z) : Process :=
  {| instance := new_ThreadProfileEventSource frequency;
     current_tick_ := 0; thread_last_tick := ∅; trace := [] |}.

(** ** The monad *)

Inductive outcome (A : Type) :=
  | Ok (a : A) (p : Process)
  | Fatal (msg : string) (p : Process).
Arguments Ok {A} a p.
Arguments Fatal {A} msg p.

Definition M (A : Type) : Type := Process → outcome A.

Global Instance M_ret : MRet M := λ A a p, Ok a p.
Global Instance M_bind : MBind M := λ A B f m p,
  match m p with
  | Ok a p' => f a p'
  | Fatal msg p' => Fatal msg p'
  end.

Definition gets {A} (f : Process → A) : M A := λ p, Ok (f p) p.
Definition modify (f : Process → Process) : M unit := λ p, Ok tt (f p).
Definition when (b : bool) (m : M unit) : M unit := if b then m else mret tt.

(** Field updates of [Process]. *)
Definition add_events (l : list os_event) (p : Process) : Process :=
  {| instance := instance p; current_tick_ := current_tick_ p;
     thread_last_tick := thread_last_tick p; trace := trace p ++ l |}.
Definition add_event (e : os_event) (p : Process) : Process := add_events [e] p.
Definition set_instance (s : ThreadProfileEventSource) (p : Process) : Process :=
  {| instance := s; current_tick_ := current_tick_ p;
     thread_last_tick := thread_last_tick p; trace := trace p |}.
Definition set_current_tick_ (v : Z) (p : Process) : Process :=
  {| instance := instance p; current_tick_ := v;
     thread_last_tick := thread_last_tick p; trace := trace p |}.
Definition set_thread_last_tick (self : pthread_t) (v : Z) (p : Process) : Process :=
  {| instance := instance p; current_tick_ := current_tick_ p;
     thread_last_tick := <[self := v]> (thread_last_tick p); trace := trace p |}.

(** The value thread [self] reads from its own [thread_last_tick]. *)
Definition last_tick (self : pthread_t) (p : Process) : Z :=
  default 0 (thread_last_tick p !! self).

Definition emit (e : os_event) : M unit := modify (add_event e).

Definition with_instance (f : ThreadProfileEventSource → ThreadProfileEventSource) : M unit :=
  modify (λ p, set_instance (f (instance p)) p).

Definition set_thread_ (t : pthread_t) : M unit :=
  with_instance (λ s, {| thread_ := t; thread_stop_ := thread_stop_ s;
                         events_enabled_ := events_enabled_ s;
                         frequency_ := frequency_ s; threads_ := threads_ s |}).
Definition set_thread_stop_ (b : bool) : M unit :=
  with_instance (λ s, {| thread_ := thread_ s; thread_stop_ := b;
                         events_enabled_ := events_enabled_ s;
                         frequency_ := frequency_ s; threads_ := threads_ s |}).
Definition set_events_enabled_ (b : bool) : M unit :=
  with_instance (λ s, {| thread_ := thread_ s; thread_stop_ := thread_stop_ s;
                         events_enabled_ := b;
                         frequency_ := frequency_ s; threads_ := threads_ s |}).
Definition set_threads_ (l : list pthread_t) : M unit :=
  with_instance (λ s, {| thread_ := thread_ s; thread_stop_ := thread_stop_ s;
                         events_enabled_ := events_enabled_ s;
                         frequency_ := frequency_ s; threads_ := l |}).

(** Modelled from the spec: the logging macro [RAW_LOG] (base/logging.h is
    not among the sources).  With FATAL the error is "fatal to the process"
    and aborts it; with WARNING the message is "logged as a warning" and
    execution goes on. *)
Definition RAW_LOG (sev : severity) (fmt : string) (args : list Z) : M unit :=
  match sev with
  | FATAL => λ p, Fatal fmt p
  | WARNING => emit (EvLog WARNING fmt args)
  end.

(** Modelled from the spec: the macro [RAW_CHECK] (base/logging.h): a
    failed check is a fatal error that aborts the process. *)
Definition RAW_CHECK (cond : bool) (msg : string) : M unit :=
  if cond then mret tt else λ p, Fatal msg p.

(** ** base::subtle atomics on the two tick variables *)

Module subtle.

(** Modelled from the spec: [Barrier_AtomicIncrement] of base/atomicops.h,
    which is not among the sources, applied to [current_tick_]: the single
    writer's atomic increment; the addition wraps around in 32 bits and the
    new value is returned. *)
Definition Barrier_AtomicIncrement_current_tick_ (increment : Z) : M Z :=
  v ← gets (λ p, to_int32 (current_tick_ p + increment));
  modify (set_current_tick_ v);;
  mret v.

(** Modelled from the spec: [Acquire_Load] of base/atomicops.h applied to
    [current_tick_]: one non-blocking read of the shared counter. *)
Definition Acquire_Load_current_tick_ : M Z := gets current_tick_.

(** Modelled from the spec: [Acquire_Load] of base/atomicops.h applied to
    [thread_last_tick] by thread [self]: a read of the thread's own cell. *)
Definition Acquire_Load_thread_last_tick (self : pthread_t) : M Z :=
  gets (last_tick self).

(** Modelled from the spec: [Release_Store] of base/atomicops.h applied to
    [thread_last_tick] by thread [self]: a write of the thread's own cell. *)
Definition Release_Store_thread_last_tick (self : pthread_t) (value : Z) : M unit :=
  modify (set_thread_last_tick self value).

End subtle.

(** ** Member functions *)

(** Lines 61-64.  [self] is [pthread_self()]; the argument is unused. *)
Definition RegisterThread (self : pthread_t) (callback_count : Z) : M unit :=
  threads ← gets (λ p, threads_ (instance p));
  set_threads_ (threads ++ [self]).

(** Lines 20-22. *)
Definition EnableEvents : M unit := set_events_enabled_ true.

(** Lines 23-25: the body assigns [true], like [EnableEvents]. *)
Definition DisableEvents : M unit := set_events_enabled_ true.

(** Line 27. *)
Definition GetSignal : Z := SIGPROF.

(** Lines 66-102. *)
Definition StartTimerThread (os : OS) : M unit :=
  thread ← gets (λ p, thread_ (instance p));
  when (negb (thread =? 0)) (RAW_LOG FATAL "Timer already running" []);;
  when (negb (pthread_attr_init os =? 0))
       (RAW_LOG FATAL "Cannot initialize pthread_attr_t" []);;
  let scheduler := sched_getscheduler os in
  when (scheduler =? -1) (RAW_LOG FATAL "Cannot get current scheduler" []);;
  let max_priority := sched_get_priority_max os scheduler in
  when (max_priority =? -1) (RAW_LOG FATAL "Cannot get max priority" []);;
  when (negb (pthread_attr_setschedparam os max_priority =? 0))
       (RAW_LOG FATAL "Cannot set timer thread priority" []);;
  set_thread_stop_ false;;
  let '(rc, thread) := pthread_create os in
  when (negb (rc =? 0)) (RAW_LOG FATAL "Cannot create timer thread" []);;
  emit (EvCreate thread);;
  set_thread_ thread.

(** Lines 157-166.  [pthread_join] returns once the timer thread has seen
    [thread_stop_] at the top of its loop and left [TimerThreadMain]. *)
Definition StopTimerThread (os : OS) : M unit :=
  thread ← gets (λ p, thread_ (instance p));
  if negb (thread =? 0) then
    set_thread_stop_ true;;
    when (negb (pthread_join os thread =? 0))
         (RAW_LOG FATAL "Cannot stop timer thread %d" []);;
    emit (EvJoin thread);;
    set_thread_ 0
  else mret tt.

(** Lines 168-170. *)
Definition Reset (os : OS) : M unit := StopTimerThread os.

(** Lines 196-201. *)
Definition RegisteredCallback (os : OS) (new_callback_count : Z) : M unit :=
  when (new_callback_count =? 1) (StartTimerThread os).

(** Lines 203-207. *)
Definition UnregisteredCallback (os : OS) (new_callback_count : Z) : M unit :=
  when (new_callback_count =? 0) (StopTimerThread os).

(** Lines 172-193, executed by thread [self].  Both operands are [Atomic32];
    the difference is converted to [uint32_t]. *)
Definition GetTicksSinceLastCall (self : pthread_t) : M Z :=
  system_time ← subtle.Acquire_Load_current_tick_;
  thread_time ← subtle.Acquire_Load_thread_last_tick self;
  let ticks :=
    if negb (thread_time =? 0) then
      if system_time >? thread_time
      then to_uint32 (system_time - thread_time)
      else to_uint32 (thread_time - system_time)
    else 1 in
  subtle.Release_Store_thread_last_tick self system_time;;
  mret ticks.

(** ** The timer thread *)

(** Lines 121-145: one pass over [threads_] under the lock; returns the list
    as the pass leaves it.  [i] numbers the delivery attempt. *)
Fixpoint signal_threads (os : OS) (i : nat) (threads : list pthread_t)
  : M (list pthread_t) :=
  match threads with
  | [] => mret []
  | it :: rest =>
    let err := pthread_kill os i it SIGPROF in
    emit (EvKill it SIGPROF err);;
    if negb (err =? 0) then
      if err =? ESRCH then
        (* it = threads.erase(it); continue; *)
        signal_threads os (S i) rest
      else
        (if err =? EINVAL
         then RAW_LOG WARNING "Error sending signal: EINVAL" []
         else RAW_LOG WARNING "Unknown error sending signal: %d" [err]);;
        rest' ← signal_threads os (S i) rest;
        mret (it :: rest')
    else
      rest' ← signal_threads os (S i) rest;
      mret (it :: rest')
  end.

(** Line 107: integer division, converted to the unsigned [__useconds_t]. *)
Definition sleep_us (frequency : Z) : Z := to_uint32 (1000000 `quot` frequency).

Definition usleep (usec : Z) : M unit := emit (EvSleep usec).

(** Lines 112-149: the body of the [while] loop. *)
Definition TimerThreadMain_body (os : OS) : M unit :=
  subtle.Barrier_AtomicIncrement_current_tick_ 1;;
  enabled ← gets (λ p, events_enabled_ (instance p));
  when enabled
    (threads ← gets (λ p, threads_ (instance p));
     threads' ← signal_threads os 0 threads;
     set_threads_ threads');;
  frequency ← gets (λ p, frequency_ (instance p));
  usleep (sleep_us frequency).

(** Lines 111-150: the loop runs while [thread_stop_] is clear.  The list
    gives the system-call answers of the successive iterations that run
    before another thread gets to act. *)
Fixpoint TimerThreadMain_loop (iterations : list OS) : M unit :=
  stop ← gets (λ p, thread_stop_ (instance p));
  if (stop : bool) then mret tt
  else match iterations with
       | [] => mret tt
       | os :: later => TimerThreadMain_body os;; TimerThreadMain_loop later
       end.

(** Integer division by zero: undefined in C++; on the Linux targets of this
    code the division instruction raises SIGFPE, which ends the process. *)
Definition divide_by_zero : M unit := λ p, Fatal "SIGFPE" p.

(** Lines 104-155.  The wake interval is computed once, before the loop
    (line 107): with [frequency_] equal to 0 that division ends the process
    before the stop flag is looked at.  Nothing writes [frequency_] after
    the constructor, so the loop body, which reads it again for the sleep,
    gets the interval computed here. *)
Definition TimerThreadMain (iterations : list OS) : M unit :=
  frequency ← gets (λ p, frequency_ (instance p));
  when (frequency =? 0) divide_by_zero;;
  RAW_CHECK (GetSignal =? SIGPROF) "Registered signal was not SIGPROF";;
  TimerThreadMain_loop iterations.

(** ** Notions used to state the properties *)

(** Timer threads that were created and not yet joined, read off the trace. *)
Definition live_step (live : list pthread_t) (e : os_event) : list pthread_t :=
  match e with
  | EvCreate t => live ++ [t]
  | EvJoin t => filter (λ u, u ≠ t) live
  | _ => live
  end.
Definition live_tasks (tr : list os_event) : list pthread_t :=
  fold_left live_step tr [].

(** The handle and the set of live timer threads agree. *)
Definition handle_tracks_task (p : Process) : Prop :=
  live_tasks (trace p) =
  if thread_ (instance p) =? 0 then [] else [thread_ (instance p)].

(** Every system call of [StartTimerThread] and [StopTimerThread] succeeds,
    and [pthread_create] hands out a non-zero handle. *)
Definition os_succeeds (os : OS) : Prop :=
  pthread_attr_init os = 0 ∧
  sched_getscheduler os ≠ -1 ∧
  sched_get_priority_max os (sched_getscheduler os) ≠ -1 ∧
  pthread_attr_setschedparam os
    (sched_get_priority_max os (sched_getscheduler os)) = 0 ∧
  (pthread_create os).1 = 0 ∧
  (pthread_create os).2 ≠ 0 ∧
  ∀ t, pthread_join os t = 0.

(** [k] increments of the shared counter by the timer thread. *)
Fixpoint advance_ticks (k : nat) : M unit :=
  match k with
  | O => mret tt
  | S k' => subtle.Barrier_AtomicIncrement_current_tick_ 1;; advance_ticks k'
  end.

(** A sequence of [RegisterThread] calls, each with its calling thread and
    its argument. *)
Fixpoint RegisterThread_calls (calls : list (pthread_t * Z)) : M unit :=
  match calls with
  | [] => mret tt
  | (self, callback_count) :: rest =>
    RegisterThread self callback_count;; RegisterThread_calls rest
  end.

(** Number of entries of the registry that name thread [t]. *)
Definition occurrences (t : pthread_t) (l : list pthread_t) : nat :=
  length (filter (λ u, u = t) l).

(** Calls of the handler into the two callback-count hooks. *)
Inductive callback_call :=
  | Registered (new_callback_count : Z)
  | Unregistered (new_callback_count : Z).

Definition callback_step (c : OS * callback_call) : M unit :=
  match c.2 with
  | Registered n => RegisteredCallback c.1 n
  | Unregistered n => UnregisteredCallback c.1 n
  end.

Fixpoint callback_calls (calls : list (OS * callback_call)) : M unit :=
  match calls with
  | [] => mret tt
  | c :: rest => callback_step c;; callback_calls rest
  end.

(** Each call reports the new total: one more than before for
    [RegisteredCallback], one less (and not below zero) for
    [UnregisteredCallback].  [count] is the total before the first call. *)
Fixpoint reports_counts (count : Z) (calls : list (OS * callback_call)) : Prop :=
  match calls with
  | [] => True
  | (_, Registered n) :: rest => n = count + 1 ∧ reports_counts n rest
  | (_, Unregistered n) :: rest =>
    n = count - 1 ∧ 0 ≤ n ∧ reports_counts n rest
  end.

(** The callback count after the calls. *)
Fixpoint count_after (count : Z) (calls : list (OS * callback_call)) : Z :=
  match calls with
  | [] => count
  | (_, Registered n) :: rest => count_after n rest
  | (_, Unregistered n) :: rest => count_after n rest
  end.

(** The spec's state machine, in its words: the task is started on the
    transition of the count from 0 to 1 and joined on the transition from 1
    to 0, and on no other call.  [count] and [handle] are the count and the
    task handle before the first call. *)
Fixpoint spec_lifecycle_events (count : Z) (handle : pthread_t)
    (calls : list (OS * callback_call)) : list os_event :=
  match calls with
  | [] => []
  | (os, Registered n) :: rest =>
    if (count =? 0) && (n =? 1)
    then EvCreate (pthread_create os).2
         :: spec_lifecycle_events n (pthread_create os).2 rest
    else spec_lifecycle_events n handle rest
  | (os, Unregistered n) :: rest =>
    if (count =? 1) && (n =? 0)
    then EvJoin handle :: spec_lifecycle_events n 0 rest
    else spec_lifecycle_events n handle rest
  end.

(** The attempts of one delivery pass: every entry with the answer of its
    [pthread_kill]. *)
Definition attempts (os : OS) (i : nat) (threads : list pthread_t)
  : list (pthread_t * Z) :=
  imap (λ j t, (t, pthread_kill os (i + j) t SIGPROF)) threads.

(** What the spec says one attempt leaves in the trace: the signal itself,
    and a warning when the answer is an error other than ESRCH. *)
Definition spec_attempt_events (a : pthread_t * Z) : list os_event :=
  EvKill a.1 SIGPROF a.2 ::
  (if decide (a.2 = 0 ∨ a.2 = ESRCH) then []
   else if decide (a.2 = EINVAL)
        then [EvLog WARNING "Error sending signal: EINVAL" []]
        else [EvLog WARNING "Unknown error sending signal: %d" [a.2]]).

(** The registry entries one delivery pass keeps: those whose attempt did
    not answer ESRCH. *)
Definition survivors (os : OS) (i : nat) (threads : list pthread_t)
  : list pthread_t :=
  (filter (λ a, a.2 ≠ ESRCH) (attempts os i threads)).*1.

(** The state [StartTimerThread] leaves when every system call succeeds. *)
Definition started (os : OS) (p : Process) : Process :=
  set_instance
    {| thread_ := (pthread_create os).2; thread_stop_ := false;
       events_enabled_ := events_enabled_ (instance p);
       frequency_ := frequency_ (instance p);
       threads_ := threads_ (instance p) |}
    (add_event (EvCreate (pthread_create os).2) p).

(** The state [StopTimerThread] leaves after joining a running task. *)
Definition stopped (p : Process) : Process :=
  set_instance
    {| thread_ := 0; thread_stop_ := true;
       events_enabled_ := events_enabled_ (instance p);
       frequency_ := frequency_ (instance p);
       threads_ := threads_ (instance p) |}
    (add_event (EvJoin (thread_ (instance p))) p).

(** ** Notions for the properties of the remaining behaviour *)

(** The state a computation ends in, whether it returned or aborted. *)
Definition final_state {A} (o : outcome A) : Process :=
  match o with
  | Ok _ p => p
  | Fatal _ p => p
  end.

(** [p] with [thread_stop_] overwritten. *)
Definition stop_flag_set (b : bool) (p : Process) : Process :=
  set_instance
    {| thread_ := thread_ (instance p); thread_stop_ := b;
       events_enabled_ := events_enabled_ (instance p);
       frequency_ := frequency_ (instance p);
       threads_ := threads_ (instance p) |} p.

(** The five system calls of [StartTimerThread] all report success. *)
Definition start_calls_succeed (os : OS) : Prop :=
  pthread_attr_init os = 0 ∧
  sched_getscheduler os ≠ -1 ∧
  sched_get_priority_max os (sched_getscheduler os) ≠ -1 ∧
  pthread_attr_setschedparam os
    (sched_get_priority_max os (sched_getscheduler os)) = 0 ∧
  (pthread_create os).1 = 0.

(** Everything that can happen to the event source: a call of a public
    member function by some thread, or one turn of the timer thread's loop.
    The timer thread exists while the handle is non-zero. *)
Inductive member_call :=
  | CallRegisterThread (self : pthread_t) (callback_count : Z)
  | CallEnableEvents
  | CallDisableEvents
  | CallGetTicksSinceLastCall (self : pthread_t)
  | CallRegisteredCallback (os : OS) (new_callback_count : Z)
  | CallUnregisteredCallback (os : OS) (new_callback_count : Z)
  | CallReset (os : OS)
  | TimerIteration (os : OS).

Definition member_step (c : member_call) : M unit :=
  match c with
  | CallRegisterThread self n => RegisterThread self n
  | CallEnableEvents => EnableEvents
  | CallDisableEvents => DisableEvents
  | CallGetTicksSinceLastCall self => GetTicksSinceLastCall self;; mret tt
  | CallRegisteredCallback os n => RegisteredCallback os n
  | CallUnregisteredCallback os n => UnregisteredCallback os n
  | CallReset os => Reset os
  | TimerIteration os =>
    thread ← gets (λ p, thread_ (instance p));
    if thread =? 0 then mret tt else TimerThreadMain_loop [os]
  end.

Fixpoint member_calls (calls : list member_call) : M unit :=
  match calls with
  | [] => mret tt
  | c :: rest => member_step c;; member_calls rest
  end.

(** The threads that call [RegisterThread] in a sequence, in call order. *)
Definition callers (calls : list member_call) : list pthread_t :=
  omap (λ c, match c with
             | CallRegisterThread self _ => Some self
             | _ => None
             end) calls.

Definition is_timer_iteration (c : member_call) : Prop :=
  match c with
  | TimerIteration _ => True
  | _ => False
  end.

Definition is_sample_by (self : pthread_t) (c : member_call) : Prop :=
  match c with
  | CallGetTicksSinceLastCall s => s = self
  | _ => False
  end.

(** A [pthread_create] that reports success hands out a non-zero handle. *)
Definition create_gives_handle (c : member_call) : Prop :=
  match c with
  | CallRegisteredCallback os _ =>
    (pthread_create os).1 = 0 → (pthread_create os).2 ≠ 0
  | _ => True
  end.

(** Thread [self] samples repeatedly: before each call the counter advances
    by the next element of [ks].  Returns what the calls returned. *)
Fixpoint sample_run (self : pthread_t) (ks : list nat) : M (list Z) :=
  match ks with
  | [] => mret []
  | k :: later =>
    advance_ticks k;;
    ticks ← GetTicksSinceLastCall self;
    rest ← sample_run self later;
    mret (ticks :: rest)
  end.

Definition Z_sum (l : list Z) : Z := foldr Z.add 0 l.

(** The state one iteration of the timer loop leaves. *)
Definition after_iteration (os : OS) (p : Process) : Process :=
  let p1 := set_current_tick_ (to_int32 (current_tick_ p + 1)) p in
  let p2 :=
    if events_enabled_ (instance p)
    then set_instance
           {| thread_ := thread_ (instance p);
              thread_stop_ := thread_stop_ (instance p);
              events_enabled_ := events_enabled_ (instance p);
              frequency_ := frequency_ (instance p);
              threads_ := survivors os 0 (threads_ (instance p)) |}
           (add_events (flat_map spec_attempt_events
                          (attempts os 0 (threads_ (instance p)))) p1)
    else p1 in
  add_event (EvSleep (sleep_us (frequency_ (instance p)))) p2.

(** The states one step can end in, returning or aborting. *)
Definition step_shape (c : member_call) (p q : Process) : Prop :=
  match c with
  | CallRegisterThread self _ =>
    q = set_instance
          {| thread_ := thread_ (instance p);
             thread_stop_ := thread_stop_ (instance p);
             events_enabled_ := events_enabled_ (instance p);
             frequency_ := frequency_ (instance p);
             threads_ := threads_ (instance p) ++ [self] |} p
  | CallEnableEvents | CallDisableEvents =>
    q = set_instance
          {| thread_ := thread_ (instance p);
             thread_stop_ := thread_stop_ (instance p);
             events_enabled_ := true;
             frequency_ := frequency_ (instance p);
             threads_ := threads_ (instance p) |} p
  | CallGetTicksSinceLastCall self =>
    q = set_thread_last_tick self (current_tick_ p) p
  | CallRegisteredCallback os _ =>
    q = p ∨ q = stop_flag_set false p ∨
    (thread_ (instance p) = 0 ∧ (pthread_create os).1 = 0 ∧ q = started os p)
  | CallUnregisteredCallback os _ | CallReset os =>
    q = p ∨ q = stop_flag_set true p ∨
    (thread_ (instance p) ≠ 0 ∧ q = stopped p)
  | TimerIteration os =>
    q = p ∨ (thread_ (instance p) ≠ 0 ∧ q = after_iteration os p)
  end.

(** ** The timing helper of the test program (tests/profiler/test.cc) *)

Module TimingTimestamp.

Definition to_uint64 (x : Z) : Z := x mod 2 ^ 64.

(** [struct timespec], as [clock_gettime] fills it. *)
Record timespec := mkTimespec { tv_sec : Z; tv_nsec : Z }.

(** A reading of the clock: both fields non-negative, [tv_nsec] below one
    second, and [tv_sec] below 2^34 (some 544 years), so that the instant in
    nanoseconds fits 64 bits. *)
Definition clock_reading (t : timespec) : Prop :=
  0 ≤ tv_sec t < 2 ^ 34 ∧ 0 ≤ tv_nsec t < 1000000000.

(** The instant in nanoseconds. *)
Definition nanos (t : timespec) : Z := tv_sec t * 1000000000 + tv_nsec t.

(** [operator-], lines 36-41: [delta] is a [uint64_t]. *)
Definition minus (lhs rhs : timespec) : Z :=
  let delta := to_uint64 (tv_sec lhs - tv_sec rhs) in
  let delta := to_uint64 (delta * 1000000000) in
  let delta := to_uint64 (delta + (tv_nsec lhs - tv_nsec rhs)) in
  delta.

(** [subtract_nanos], lines 61-67. *)
Definition subtract_nanos (lhs rhs : timespec) : Z :=
  let delta := to_uint64 (tv_sec lhs - tv_sec rhs) in
  let delta := to_uint64 (delta * 1000000000) in
  let delta := to_uint64 (delta + tv_nsec lhs) in
  let delta := to_uint64 (delta - tv_nsec rhs) in
  delta.

(** [since], lines 43-47, [nanos_since], lines 54-59, and [micros_since],
    lines 49-52; [now] is what [clock_gettime] answers inside the call. *)
Definition since (now base : timespec) : Z := minus now base.
Definition nanos_since (now base : timespec) : Z := subtract_nanos now base.
Definition micros_since (now base : timespec) : Z :=
  let nanos := nanos_since now base in
  to_uint32 (nanos / 1000).

End TimingTimestamp.

(** Unfolds the member functions down to the record updates. *)
Ltac run :=
  unfold Reset, UnregisteredCallback, RegisteredCallback, StopTimerThread,
    StartTimerThread, EnableEvents, DisableEvents, RegisterThread,
    GetTicksSinceLastCall, subtle.Acquire_Load_current_tick_,
    subtle.Acquire_Load_thread_last_tick,
    subtle.Release_Store_thread_last_tick,
    subtle.Barrier_AtomicIncrement_current_tick_,
    set_thread_, set_thread_stop_, set_threads_, set_events_enabled_,
    with_instance, emit, RAW_LOG, RAW_CHECK, when, gets, modify,
    mbind, M_bind, mret, M_ret in *;
  cbn beta iota.

(** * Properties *)

(** ** Running computations *)

Lemma bind_Ok {A B} (m : M A) (f : A → M B) p a p' :
  m p = Ok a p' → (m ≫= f) p = f a p'.
Proof. intros H. unfold mbind, M_bind. now rewrite H. Qed.

Lemma bind_Fatal {A B} (m : M A) (f : A → M B) p msg p' :
  m p = Fatal msg p' → (m ≫= f) p = Fatal msg p'.
Proof. intros H. unfold mbind, M_bind. now rewrite H. Qed.

Lemma bind_gets {A B} (g : Process → A) (f : A → M B) p :
  (gets g ≫= f) p = f (g p) p.
Proof. reflexivity. Qed.

Lemma bind_modify {B} (g : Process → Process) (f : unit → M B) p :
  (modify g ≫= f) p = f tt (g p).
Proof. reflexivity. Qed.

Lemma set_instance_same p : set_instance (instance p) p = p.
Proof. now destruct p. Qed.

(** ** Elapsed-tick accounting *)

Lemma to_int32_id x : int32_range x → to_int32 x = x.
Proof.
  unfold int32_range, INT32_MIN, INT32_MAX, to_int32. intros H.
  rewrite Z.mod_small; lia.
Qed.

Lemma to_int32_range x : int32_range (to_int32 x).
Proof.
  unfold int32_range, INT32_MIN, INT32_MAX, to_int32.
  pose proof (Z.mod_pos_bound (x + 2 ^ 31) (2 ^ 32)). lia.
Qed.

(** What a call computes, in one equation. *)
Lemma GetTicksSinceLastCall_eq self p :
  GetTicksSinceLastCall self p =
  Ok (if last_tick self p =? 0 then 1
      else if current_tick_ p >? last_tick self p
           then to_uint32 (current_tick_ p - last_tick self p)
           else to_uint32 (last_tick self p - current_tick_ p))
     (set_thread_last_tick self (current_tick_ p) p).
Proof. run. now destruct (last_tick self p =? 0). Qed.

Lemma last_tick_stored self v p :
  last_tick self (set_thread_last_tick self v p) = v.
Proof. unfold last_tick. cbn. now rewrite lookup_insert_eq. Qed.

(** C3: the first call on a thread, whose [thread_last_tick] still holds its
    initial 0, returns exactly 1 (and records the counter value read). *)
Theorem GetTicksSinceLastCall_first_call self p :
  last_tick self p = 0 →
  GetTicksSinceLastCall self p =
  Ok 1 (set_thread_last_tick self (current_tick_ p) p).
Proof. intros H. rewrite GetTicksSinceLastCall_eq, H. reflexivity. Qed.

Lemma GetTicksSinceLastCall_first_call_witness :
  last_tick 7 (start_process 100) = 0 ∧
  GetTicksSinceLastCall 7 (start_process 100) =
  Ok 1 (set_thread_last_tick 7 (current_tick_ (start_process 100))
          (start_process 100)).
Proof.
  split; [reflexivity|].
  apply (GetTicksSinceLastCall_first_call 7 (start_process 100)).
  reflexivity.
Defined.

(** C9: a call made while the shared counter reads 0 stores 0, the value
    that also means "never queried"; whatever the counter reads at the
    thread's next call, that call returns 1. *)
Theorem GetTicksSinceLastCall_at_tick_zero self p :
  current_tick_ p = 0 →
  ∃ ticks p1,
    GetTicksSinceLastCall self p = Ok ticks p1 ∧
    last_tick self p1 = 0 ∧
    ∀ p2, last_tick self p2 = last_tick self p1 →
          GetTicksSinceLastCall self p2 =
          Ok 1 (set_thread_last_tick self (current_tick_ p2) p2).
Proof.
  intros H. rewrite GetTicksSinceLastCall_eq. eexists _, _.
  split; [reflexivity|]. rewrite last_tick_stored. split; [exact H|].
  intros p2 H2. rewrite H in H2.
  rewrite GetTicksSinceLastCall_eq, H2. reflexivity.
Qed.

Lemma GetTicksSinceLastCall_at_tick_zero_witness :
  current_tick_ (start_process 100) = 0 ∧
  ∃ ticks p1,
    GetTicksSinceLastCall 7 (start_process 100) = Ok ticks p1 ∧
    last_tick 7 p1 = 0 ∧
    ∀ p2, last_tick 7 p2 = last_tick 7 p1 →
          GetTicksSinceLastCall 7 p2 =
          Ok 1 (set_thread_last_tick 7 (current_tick_ p2) p2).
Proof.
  split; [reflexivity|].
  apply (GetTicksSinceLastCall_at_tick_zero 7 (start_process 100)).
  reflexivity.
Defined.

Lemma to_int32_add_l x y : to_int32 (to_int32 x + y) = to_int32 (x + y).
Proof.
  unfold to_int32. f_equal.
  replace ((x + 2 ^ 31) mod 2 ^ 32 - 2 ^ 31 + y + 2 ^ 31)
    with ((x + 2 ^ 31) mod 2 ^ 32 + y) by lia.
  rewrite Zplus_mod_idemp_l. f_equal. lia.
Qed.

Lemma set_current_tick__twice v w p :
  set_current_tick_ v (set_current_tick_ w p) = set_current_tick_ v p.
Proof. reflexivity. Qed.

Lemma set_current_tick__same p : set_current_tick_ (current_tick_ p) p = p.
Proof. now destruct p. Qed.

(** [k] increments add [k] to the counter, wrapping around in 32 bits. *)
Lemma advance_ticks_eq (k : nat) p :
  int32_range (current_tick_ p) →
  advance_ticks k p =
  Ok tt (set_current_tick_ (to_int32 (current_tick_ p + Z.of_nat k)) p).
Proof.
  revert p. induction k as [|k IH]; intros p Hr.
  - cbn [advance_ticks]. rewrite Z.add_0_r, to_int32_id by exact Hr.
    now rewrite set_current_tick__same.
  - cbn [advance_ticks]. run. rewrite IH by (cbn; apply to_int32_range).
    cbn [current_tick_ set_current_tick_]. rewrite to_int32_add_l.
    replace (current_tick_ p + 1 + Z.of_nat k)
      with (current_tick_ p + Z.of_nat (S k)) by lia.
    reflexivity.
Qed.

(** X19: when the thread's recorded tick is not 0 and the counter advances
    by [k] between two calls of the thread without wrapping past its largest
    value, the second call returns [k]; with [k = 0] it returns 0. *)
Theorem GetTicksSinceLastCall_delta self p (k : nat) :
  int32_range (current_tick_ p) →
  current_tick_ p ≠ 0 →
  current_tick_ p + Z.of_nat k ≤ INT32_MAX →
  ∃ ticks p1 p2,
    GetTicksSinceLastCall self p = Ok ticks p1 ∧
    last_tick self p1 ≠ 0 ∧
    (advance_ticks k;; GetTicksSinceLastCall self) p1 = Ok (Z.of_nat k) p2.
Proof.
  intros Hr Hnz Hk. rewrite GetTicksSinceLastCall_eq. eexists _, _, _.
  split; [reflexivity|]. rewrite last_tick_stored. split; [exact Hnz|].
  erewrite bind_Ok by (apply advance_ticks_eq; exact Hr).
  rewrite GetTicksSinceLastCall_eq.
  cbn [current_tick_ set_current_tick_ set_thread_last_tick].
  assert (Hl : ∀ v, last_tick self (set_current_tick_ v
             (set_thread_last_tick self (current_tick_ p) p)) = current_tick_ p).
  { intros v. unfold last_tick. cbn. now rewrite lookup_insert_eq. }
  rewrite Hl.
  assert (Hin : int32_range (current_tick_ p + Z.of_nat k)).
  { unfold int32_range, INT32_MIN, INT32_MAX in *. lia. }
  rewrite (to_int32_id _ Hin).
  destruct (current_tick_ p =? 0) eqn:E; [lia|].
  f_equal. unfold int32_range, INT32_MIN, INT32_MAX in *.
  destruct (current_tick_ p + Z.of_nat k >? current_tick_ p) eqn:G.
  - unfold to_uint32. rewrite Z.mod_small; lia.
  - assert (Z.of_nat k = 0) as -> by lia.
    rewrite Z.add_0_r, Z.sub_diag. reflexivity.
Qed.

Lemma GetTicksSinceLastCall_delta_witness :
  let p := set_current_tick_ 5 (start_process 100) in
  int32_range (current_tick_ p) ∧
  current_tick_ p ≠ 0 ∧
  current_tick_ p + Z.of_nat 3 ≤ INT32_MAX ∧
  ∃ ticks p1 p2,
    GetTicksSinceLastCall 7 p = Ok ticks p1 ∧
    last_tick 7 p1 ≠ 0 ∧
    (advance_ticks 3;; GetTicksSinceLastCall 7) p1 = Ok (Z.of_nat 3) p2.
Proof.
  cbv zeta.
  assert (H1 : int32_range (current_tick_ (set_current_tick_ 5 (start_process 100))))
    by (unfold int32_range, INT32_MIN, INT32_MAX; cbn; lia).
  assert (H2 : current_tick_ (set_current_tick_ 5 (start_process 100)) ≠ 0)
    by (cbn; lia).
  assert (H3 : current_tick_ (set_current_tick_ 5 (start_process 100))
               + Z.of_nat 3 ≤ INT32_MAX)
    by (unfold INT32_MAX; cbn; lia).
  split; [exact H1|]. split; [exact H2|]. split; [exact H3|].
  exact (GetTicksSinceLastCall_delta 7 _ 3 H1 H2 H3).
Defined.

(** C2 fails on the code when the counter wraps between the two calls: with
    the counter at its largest value 2147483647 at the first call and one
    tick later at -2147483648, the branch for a counter below the recorded
    tick subtracts the wrong way round and the second call returns
    4294967295, neither the 1 tick that elapsed nor the unsigned difference
    of the two readings. *)
Theorem GetTicksSinceLastCall_delta_after_wrap :
  let p := set_current_tick_ INT32_MAX (start_process 100) in
  ∃ ticks p1 p2,
    GetTicksSinceLastCall 7 p = Ok ticks p1 ∧
    last_tick 7 p1 ≠ 0 ∧
    (advance_ticks 1;; GetTicksSinceLastCall 7) p1 = Ok 4294967295 p2 ∧
    4294967295 ≠ to_uint32 (Z.of_nat 1) ∧
    4294967295 ≠ to_uint32 (current_tick_ p2 - last_tick 7 p1).
Proof.
  cbv zeta. eexists _, _, _.
  split; [apply GetTicksSinceLastCall_eq|].
  split; [vm_compute; discriminate|].
  split; [vm_compute; reflexivity|].
  split; vm_compute; discriminate.
Qed.

(** ** Starting and stopping the timer thread *)

(** C10: with a zero task handle, [StopTimerThread], [UnregisteredCallback(0)]
    and [Reset] return normally and leave the whole process state, every
    field of the event source included, as it was. *)
Theorem StopTimerThread_idle_unchanged os p :
  thread_ (instance p) = 0 →
  StopTimerThread os p = Ok tt p ∧
  UnregisteredCallback os 0 p = Ok tt p ∧
  Reset os p = Ok tt p.
Proof.
  intros H. run. cbn. rewrite H. cbn. auto.
Qed.

Lemma StopTimerThread_idle_unchanged_witness :
  let os := mkOS 0 0 (λ _, 99) (λ _, 0) (0, 100) (λ _, 0) (λ _ _ _, 0) in
  let p := add_event (EvSleep 10000)
             (set_instance (mkSource 0 true true 100 [7; 8])
                (set_current_tick_ 42 (start_process 100))) in
  thread_ (instance p) = 0 ∧
  StopTimerThread os p = Ok tt p ∧
  UnregisteredCallback os 0 p = Ok tt p ∧
  Reset os p = Ok tt p.
Proof.
  cbv zeta. split; [reflexivity|].
  apply StopTimerThread_idle_unchanged. reflexivity.
Defined.

(** C7: with a non-zero task handle, [StartTimerThread] (and so
    [RegisteredCallback(1)]) aborts with "Timer already running" before any
    system call: the state at the abort is the state at the call, so no
    second task was created. *)
Theorem StartTimerThread_running_fatal os p :
  thread_ (instance p) ≠ 0 →
  StartTimerThread os p = Fatal "Timer already running" p ∧
  RegisteredCallback os 1 p = Fatal "Timer already running" p.
Proof.
  intros H. run. cbn.
  destruct (thread_ (instance p) =? 0) eqn:E; [lia|]. cbn. auto.
Qed.

Lemma StartTimerThread_running_fatal_witness :
  let os := mkOS 0 0 (λ _, 99) (λ _, 0) (0, 100) (λ _, 0) (λ _ _ _, 0) in
  let p := add_event (EvCreate 100)
             (set_instance (mkSource 100 false false 50 []) (start_process 50)) in
  RegisteredCallback os 1 (start_process 50) = Ok tt p ∧
  thread_ (instance p) ≠ 0 ∧
  StartTimerThread os p = Fatal "Timer already running" p ∧
  RegisteredCallback os 1 p = Fatal "Timer already running" p.
Proof.
  cbv zeta. split; [reflexivity|]. split; [cbn; lia|].
  apply StartTimerThread_running_fatal. cbn. lia.
Defined.

(** ** Suppressing events *)

Lemma TimerThreadMain_loop_stop iterations p :
  thread_stop_ (instance p) = true →
  TimerThreadMain_loop iterations p = Ok tt p.
Proof. intros H. destruct iterations; cbn; rewrite bind_gets, H; reflexivity. Qed.

(** C1 fails on the code: [DisableEvents] stores [true], exactly like
    [EnableEvents], so the flag is set after every call.  On a source that
    was constructed (events off), had thread 7 registered and was started,
    one iteration of the timer thread sends nothing; after a call of
    [DisableEvents] the same iteration sends SIGPROF to thread 7. *)
Theorem DisableEvents_keeps_delivering :
  (∀ p, DisableEvents p = EnableEvents p) ∧
  (∀ p, ∃ p1, DisableEvents p = Ok tt p1 ∧
              events_enabled_ (instance p1) = true) ∧
  let os := mkOS 0 0 (λ _, 99) (λ _, 0) (0, 100) (λ _, 0) (λ _ _ _, 0) in
  (RegisterThread 7 0;; RegisteredCallback os 1;;
   TimerThreadMain [os]) (start_process 100) =
  Ok tt {| instance := mkSource 100 false false 100 [7];
           current_tick_ := 1; thread_last_tick := ∅;
           trace := [EvCreate 100; EvSleep 10000] |} ∧
  (RegisterThread 7 0;; RegisteredCallback os 1;; DisableEvents;;
   TimerThreadMain [os]) (start_process 100) =
  Ok tt {| instance := mkSource 100 false true 100 [7];
           current_tick_ := 1; thread_last_tick := ∅;
           trace := [EvCreate 100; EvKill 7 SIGPROF 0; EvSleep 10000] |}.
Proof.
  split; [reflexivity|]. split.
  - intros p. eexists. split; reflexivity.
  - split; reflexivity.
Qed.

(** ** The worker registry *)

Lemma RegisterThread_eq self callback_count p :
  RegisterThread self callback_count p =
  Ok tt (set_instance
           {| thread_ := thread_ (instance p);
              thread_stop_ := thread_stop_ (instance p);
              events_enabled_ := events_enabled_ (instance p);
              frequency_ := frequency_ (instance p);
              threads_ := threads_ (instance p) ++ [self] |} p).
Proof. reflexivity. Qed.

Lemma occurrences_app t l1 l2 :
  occurrences t (l1 ++ l2) = (occurrences t l1 + occurrences t l2)%nat.
Proof. unfold occurrences. now rewrite filter_app, length_app. Qed.

(** C8, as the code has it: the registry is a list and [RegisterThread]
    appends the caller without looking for an earlier entry.  After any
    sequence of calls the registry is the old one followed by the callers in
    call order, every other field is untouched, and a thread occurs once
    more for each of its calls. *)
Theorem RegisterThread_calls_append calls p :
  ∃ p',
    RegisterThread_calls calls p = Ok tt p' ∧
    threads_ (instance p') = threads_ (instance p) ++ calls.*1 ∧
    (∀ t, occurrences t (threads_ (instance p')) =
          (occurrences t (threads_ (instance p)) + occurrences t calls.*1)%nat) ∧
    thread_ (instance p') = thread_ (instance p) ∧
    thread_stop_ (instance p') = thread_stop_ (instance p) ∧
    events_enabled_ (instance p') = events_enabled_ (instance p) ∧
    frequency_ (instance p') = frequency_ (instance p) ∧
    current_tick_ p' = current_tick_ p ∧
    thread_last_tick p' = thread_last_tick p ∧
    trace p' = trace p.
Proof.
  revert p. induction calls as [|[self n] calls IH]; intros p.
  - exists p. cbn. rewrite app_nil_r. repeat split; auto.
  - cbn [RegisterThread_calls].
    erewrite bind_Ok by apply RegisterThread_eq.
    destruct (IH (set_instance
           {| thread_ := thread_ (instance p);
              thread_stop_ := thread_stop_ (instance p);
              events_enabled_ := events_enabled_ (instance p);
              frequency_ := frequency_ (instance p);
              threads_ := threads_ (instance p) ++ [self] |} p))
      as (p' & Hrun & Hl & _ & Hrest).
    exists p'. split; [exact Hrun|]. cbn in Hl, Hrest.
    assert (Hl' : threads_ (instance p') =
                  threads_ (instance p) ++ ((self, n) :: calls).*1).
    { rewrite Hl, <- app_assoc. reflexivity. }
    split; [exact Hl'|]. split; [|exact Hrest].
    intros t. rewrite Hl'. apply occurrences_app.
Qed.

(** C8 as stated fails: two [RegisterThread] calls by thread 7 leave two
    entries for it in the registry. *)
Lemma RegisterThread_twice_counterexample :
  ∃ p, (RegisterThread 7 0;; RegisterThread 7 0) (start_process 100) = Ok tt p ∧
       threads_ (instance p) = [7; 7] ∧
       occurrences 7 (threads_ (instance p)) = 2%nat ∧
       ¬ NoDup (threads_ (instance p)).
Proof.
  eexists. split; [reflexivity|]. cbn. split; [reflexivity|].
  split; [reflexivity|].
  intros H. apply NoDup_cons_1_1 in H. apply H. constructor.
Qed.

(** ** The callback-count hooks *)

Lemma StartTimerThread_eq os p :
  os_succeeds os → thread_ (instance p) = 0 →
  StartTimerThread os p = Ok tt (started os p).
Proof.
  intros (H1 & H2 & H3 & H4 & H5 & H6 & H7) H0. run. cbn.
  rewrite H0, H1, H4. cbn.
  destruct (sched_getscheduler os =? -1) eqn:E2; [lia|].
  destruct (sched_get_priority_max os (sched_getscheduler os) =? -1) eqn:E3;
    [lia|].
  unfold started. destruct (pthread_create os) as [rc th]. cbn in H5.
  subst rc. reflexivity.
Qed.

Lemma StopTimerThread_eq os p :
  thread_ (instance p) ≠ 0 → pthread_join os (thread_ (instance p)) = 0 →
  StopTimerThread os p = Ok tt (stopped p).
Proof.
  intros H0 Hj. run. cbn.
  destruct (thread_ (instance p) =? 0) eqn:E; [lia|]. cbn.
  rewrite Hj. reflexivity.
Qed.

Lemma StopTimerThread_idle os p :
  thread_ (instance p) = 0 → StopTimerThread os p = Ok tt p.
Proof. intros H. run. cbn. rewrite H. reflexivity. Qed.

Lemma live_tasks_snoc tr e :
  live_tasks (tr ++ [e]) = live_step (live_tasks tr) e.
Proof. unfold live_tasks. now rewrite fold_left_app. Qed.

Lemma started_tracks os p :
  thread_ (instance p) = 0 → (pthread_create os).2 ≠ 0 →
  handle_tracks_task p → handle_tracks_task (started os p).
Proof.
  unfold handle_tracks_task. intros H0 Hh Hp.
  cbn [started set_instance add_event add_events instance trace thread_].
  rewrite live_tasks_snoc, Hp, H0. cbn.
  destruct ((pthread_create os).2 =? 0) eqn:E; [lia|]. reflexivity.
Qed.

Lemma stopped_tracks p :
  thread_ (instance p) ≠ 0 →
  handle_tracks_task p → handle_tracks_task (stopped p).
Proof.
  unfold handle_tracks_task. intros H0 Hp.
  cbn [stopped set_instance add_event add_events instance trace thread_].
  rewrite live_tasks_snoc, Hp.
  destruct (thread_ (instance p) =? 0) eqn:E; [lia|]. cbn.
  destruct (decide (thread_ (instance p) ≠ thread_ (instance p))); congruence.
Qed.

(** ** Reset *)

(** C5 fails on the code: [Reset] only calls [StopTimerThread].  After
    registering thread 7, enabling events, starting the timer and calling
    [Reset], the source still has thread 7 in its registry, events enabled
    and the stop flag set; it is not in the state the constructor leaves,
    which the comment on [Reset] in profiler_eventsource.h promises
    ("Resets any internal state to the initial state"). *)
Theorem Reset_keeps_registry_and_flags :
  let os := mkOS 0 0 (λ _, 99) (λ _, 0) (0, 100) (λ _, 0) (λ _ _ _, 0) in
  ∃ p,
    (RegisterThread 7 0;; EnableEvents;; RegisteredCallback os 1;; Reset os)
      (start_process 100) = Ok tt p ∧
    instance p = mkSource 0 true true 100 [7] ∧
    instance p ≠ new_ThreadProfileEventSource 100.
Proof.
  cbv zeta. eexists. split; [reflexivity|]. cbn. split; [reflexivity|].
  discriminate.
Qed.

(** ** The delivery pass *)

Lemma attempts_cons os i t rest :
  attempts os i (t :: rest) =
  (t, pthread_kill os i t SIGPROF) :: attempts os (S i) rest.
Proof.
  unfold attempts. cbn [imap]. rewrite Nat.add_0_r. f_equal.
  apply imap_ext. intros j x _. cbn. do 2 f_equal. lia.
Qed.

Lemma add_events_nil p : add_events [] p = p.
Proof. destruct p. unfold add_events. cbn. now rewrite app_nil_r. Qed.

Lemma add_events_app l1 l2 p :
  add_events l2 (add_events l1 p) = add_events (l1 ++ l2) p.
Proof. unfold add_events. cbn. now rewrite app_assoc. Qed.

(** The pass in closed form: it never aborts, it attempts every entry in
    registry order, and it returns the entries whose attempt did not answer
    ESRCH. *)
Lemma signal_threads_eq os threads : ∀ i p,
  signal_threads os i threads p =
  Ok (survivors os i threads)
     (add_events (flat_map spec_attempt_events (attempts os i threads)) p).
Proof.
  unfold survivors.
  induction threads as [|t rest IH]; intros i p.
  - cbn. now rewrite add_events_nil.
  - rewrite attempts_cons. cbn [signal_threads flat_map].
    erewrite bind_Ok by reflexivity.
    change (add_event ?e p) with (add_events [e] p).
    unfold spec_attempt_events at 1. cbn [fst snd].
    set (err := pthread_kill os i t SIGPROF).
    rewrite filter_cons. cbn [snd].
    destruct (decide (err = 0)) as [E0|E0].
    { rewrite E0. cbn [Z.eqb negb].
      erewrite bind_Ok by apply IH. rewrite add_events_app.
      destruct (decide (0 ≠ ESRCH)) as [_|N]; [|exfalso; apply N; discriminate].
      destruct (decide (0 = 0 ∨ 0 = ESRCH)) as [_|N]; [|exfalso; apply N; auto].
      reflexivity. }
    assert (Eb : (err =? 0) = false) by lia. rewrite Eb. cbn [negb].
    destruct (decide (err = ESRCH)) as [E1|E1].
    { assert (Eb1 : (err =? ESRCH) = true) by lia. rewrite Eb1.
      rewrite IH, add_events_app.
      destruct (decide (err ≠ ESRCH)) as [N|_]; [contradiction|].
      destruct (decide (err = 0 ∨ err = ESRCH)) as [_|N]; [|exfalso; auto].
      reflexivity. }
    assert (Eb1 : (err =? ESRCH) = false) by lia. rewrite Eb1.
    destruct (decide (err ≠ ESRCH)) as [_|N]; [|contradiction].
    destruct (decide (err = 0 ∨ err = ESRCH)) as [[N|N]|_]; [contradiction..|].
    destruct (decide (err = EINVAL)) as [E2|E2].
    + assert (Eb2 : (err =? EINVAL) = true) by lia. rewrite Eb2.
      erewrite bind_Ok by reflexivity.
      erewrite bind_Ok by apply IH.
      change (add_event ?e ?q) with (add_events [e] q).
      rewrite !add_events_app. reflexivity.
    + assert (Eb2 : (err =? EINVAL) = false) by lia. rewrite Eb2.
      erewrite bind_Ok by reflexivity.
      erewrite bind_Ok by apply IH.
      change (add_event ?e ?q) with (add_events [e] q).
      rewrite !add_events_app. reflexivity.
Qed.

Lemma attempts_app os i l1 l2 :
  attempts os i (l1 ++ l2) =
  attempts os i l1 ++ attempts os (i + length l1) l2.
Proof.
  unfold attempts. rewrite imap_app. f_equal.
  apply imap_ext. intros j x _. cbn. do 2 f_equal. lia.
Qed.

Lemma survivors_app os i l1 l2 :
  survivors os i (l1 ++ l2) =
  survivors os i l1 ++ survivors os (i + length l1) l2.
Proof. unfold survivors. now rewrite attempts_app, filter_app, fmap_app. Qed.

Lemma flat_map_app' {A B} (f : A → list B) l1 l2 :
  flat_map f (l1 ++ l2) = flat_map f l1 ++ flat_map f l2.
Proof. induction l1 as [|a l1 IH]; cbn; [done|]. now rewrite IH, app_assoc. Qed.

(** One iteration of the timer loop, in closed form. *)
Lemma TimerThreadMain_body_eq os p :
  TimerThreadMain_body os p =
  let p1 := set_current_tick_ (to_int32 (current_tick_ p + 1)) p in
  let p2 :=
    if events_enabled_ (instance p)
    then set_instance
           {| thread_ := thread_ (instance p);
              thread_stop_ := thread_stop_ (instance p);
              events_enabled_ := events_enabled_ (instance p);
              frequency_ := frequency_ (instance p);
              threads_ := survivors os 0 (threads_ (instance p)) |}
           (add_events (flat_map spec_attempt_events
                          (attempts os 0 (threads_ (instance p)))) p1)
    else p1 in
  Ok tt (add_event (EvSleep (sleep_us (frequency_ (instance p)))) p2).
Proof.
  unfold TimerThreadMain_body.
  erewrite bind_Ok by reflexivity. rewrite bind_gets.
  cbn [set_current_tick_ instance]. cbv zeta.
  destruct (events_enabled_ (instance p)) eqn:E; cbn [when].
  - erewrite bind_Ok.
    2:{ rewrite bind_gets. erewrite bind_Ok by apply signal_threads_eq.
        reflexivity. }
    rewrite bind_gets. unfold usleep, emit, modify.
    cbn [set_instance add_events add_event set_current_tick_ instance
         thread_ thread_stop_ events_enabled_ frequency_ threads_].
    rewrite E. reflexivity.
  - reflexivity.
Qed.

(** C6: a delivery pass never aborts and attempts every entry of the
    registry in order.  An entry whose attempt answers ESRCH is dropped, and
    the pass goes on with the entries behind it; an entry whose attempt
    answers any other error is kept, with one warning in the log; an entry
    whose attempt succeeds is kept.  The timer loop stores the surviving
    entries back as the registry. *)
Theorem signal_threads_reaps_and_continues os i threads p :
  signal_threads os i threads p =
    Ok (survivors os i threads)
       (add_events (flat_map spec_attempt_events (attempts os i threads)) p) ∧
  (∀ pre t post, threads = pre ++ t :: post →
     let err := pthread_kill os (i + length pre) t SIGPROF in
     survivors os i threads =
       survivors os i pre ++ (if decide (err = ESRCH) then [] else [t])
       ++ survivors os (S (i + length pre)) post ∧
     flat_map spec_attempt_events (attempts os i threads) =
       flat_map spec_attempt_events (attempts os i pre)
       ++ EvKill t SIGPROF err
          :: (if decide (err = 0 ∨ err = ESRCH) then []
              else if decide (err = EINVAL)
                   then [EvLog WARNING "Error sending signal: EINVAL" []]
                   else [EvLog WARNING "Unknown error sending signal: %d" [err]])
       ++ flat_map spec_attempt_events (attempts os (S (i + length pre)) post)) ∧
  (∀ q q', events_enabled_ (instance q) = true →
     TimerThreadMain_body os q = Ok tt q' →
     threads_ (instance q') = survivors os 0 (threads_ (instance q))).
Proof.
  split; [apply signal_threads_eq|]. split.
  - intros pre t post ->. cbv zeta. split.
    + rewrite survivors_app. f_equal.
      unfold survivors at 1. rewrite attempts_cons, filter_cons. cbn [snd].
      destruct (decide (pthread_kill os (i + length pre) t SIGPROF ≠ ESRCH));
        destruct (decide (pthread_kill os (i + length pre) t SIGPROF = ESRCH));
        try contradiction; reflexivity.
    + rewrite attempts_app, flat_map_app', attempts_cons. reflexivity.
  - intros q q' He Hrun. rewrite TimerThreadMain_body_eq, He in Hrun.
    cbv zeta in Hrun. injection Hrun as <-. reflexivity.
Qed.

Lemma signal_threads_reaps_and_continues_witness :
  let os := mkOS 0 0 (λ _, 99) (λ _, 0) (0, 100) (λ _, 0)
              (λ _ t _, if t =? 8 then ESRCH else if t =? 9 then EINVAL
                        else if t =? 10 then 11 else 0) in
  let p := set_instance (mkSource 100 false true 100 [7; 8; 9; 10; 7])
             (start_process 100) in
  signal_threads os 0 [7; 8; 9; 10; 7] p =
    Ok [7; 9; 10; 7]
       (add_events
          [EvKill 7 SIGPROF 0; EvKill 8 SIGPROF ESRCH;
           EvKill 9 SIGPROF EINVAL;
           EvLog WARNING "Error sending signal: EINVAL" [];
           EvKill 10 SIGPROF 11;
           EvLog WARNING "Unknown error sending signal: %d" [11];
           EvKill 7 SIGPROF 0] p) ∧
  [7; 8; 9; 10; 7] = [7] ++ 8 :: [9; 10; 7] ∧
  survivors os 0 [7; 8; 9; 10; 7] = [7] ++ [] ++ [9; 10; 7] ∧
  events_enabled_ (instance p) = true ∧
  ∀ q', TimerThreadMain_body os p = Ok tt q' →
        threads_ (instance q') = [7; 9; 10; 7].
Proof.
  cbv zeta.
  set (os := mkOS 0 0 (λ _, 99) (λ _, 0) (0, 100) (λ _, 0)
              (λ _ t _, if t =? 8 then ESRCH else if t =? 9 then EINVAL
                        else if t =? 10 then 11 else 0)).
  set (p := set_instance (mkSource 100 false true 100 [7; 8; 9; 10; 7])
              (start_process 100)).
  destruct (signal_threads_reaps_and_continues os 0 [7; 8; 9; 10; 7] p)
    as (Hpass & Hentry & Hbody).
  split; [exact Hpass|]. split; [reflexivity|].
  split; [exact (proj1 (Hentry [7] 8 [9; 10; 7] eq_refl))|].
  split; [reflexivity|].
  intros q' Hq. exact (Hbody p q' eq_refl Hq).
Defined.

(** ** Failing system calls *)

(** Every way [StartTimerThread] can end. *)
Lemma StartTimerThread_cases os p :
  (thread_ (instance p) = 0 ∧ start_calls_succeed os ∧
   StartTimerThread os p = Ok tt (started os p)) ∨
  ((thread_ (instance p) ≠ 0 ∨ ¬ start_calls_succeed os) ∧
   ∃ msg, StartTimerThread os p = Fatal msg p ∨
          StartTimerThread os p = Fatal msg (stop_flag_set false p)).
Proof.
  unfold start_calls_succeed, started.
  destruct (decide (thread_ (instance p) = 0)) as [H0|H0].
  2:{ right. split; [auto|]. eexists. left. run. cbn.
      destruct (thread_ (instance p) =? 0) eqn:E; [lia|]. reflexivity. }
  destruct (decide (pthread_attr_init os = 0)) as [H1|H1].
  2:{ right. split; [right; tauto|]. eexists. left. run. cbn. rewrite H0. cbn.
      destruct (pthread_attr_init os =? 0) eqn:E; [lia|]. reflexivity. }
  destruct (decide (sched_getscheduler os = -1)) as [H2|H2].
  { right. split; [right; tauto|]. eexists. left. run. cbn.
    rewrite H0, H1, H2. reflexivity. }
  destruct (decide (sched_get_priority_max os (sched_getscheduler os) = -1))
    as [H3|H3].
  { right. split; [right; tauto|]. eexists. left. run. cbn. rewrite H0, H1, H3.
    cbn. destruct (sched_getscheduler os =? -1) eqn:E; [lia|]. reflexivity. }
  destruct (decide (pthread_attr_setschedparam os
              (sched_get_priority_max os (sched_getscheduler os)) = 0))
    as [H4|H4].
  2:{ right. split; [right; tauto|]. eexists. left. run. cbn. rewrite H0, H1.
      cbn. destruct (sched_getscheduler os =? -1) eqn:E; [lia|].
      destruct (sched_get_priority_max os (sched_getscheduler os) =? -1)
        eqn:E3; [lia|].
      destruct (pthread_attr_setschedparam os
                  (sched_get_priority_max os (sched_getscheduler os)) =? 0)
        eqn:E4; [lia|]. reflexivity. }
  destruct (pthread_create os) as [rc th] eqn:Ec. cbn [fst snd].
  destruct (decide (rc = 0)) as [H5|H5].
  - left. split; [exact H0|]. split; [tauto|]. run. cbn.
    rewrite H0, H1, H4, Ec. cbn.
    destruct (sched_getscheduler os =? -1) eqn:E; [lia|].
    destruct (sched_get_priority_max os (sched_getscheduler os) =? -1)
      eqn:E3; [lia|].
    subst rc. reflexivity.
  - right. split; [right; tauto|]. eexists. right. run. cbn.
    rewrite H0, H1, H4, Ec. cbn.
    destruct (sched_getscheduler os =? -1) eqn:E; [lia|].
    destruct (sched_get_priority_max os (sched_getscheduler os) =? -1)
      eqn:E3; [lia|].
    destruct (rc =? 0) eqn:E5; [lia|]. reflexivity.
Qed.

(** X1: [StartTimerThread] returns exactly when the handle is zero and its
    five system calls report success; in every other case it aborts, and at
    the abort the handle, the registry, the events flag and the trace are as
    before the call: no thread was created. *)
Theorem StartTimerThread_returns_iff os p :
  ((∃ p', StartTimerThread os p = Ok tt p') ↔
   thread_ (instance p) = 0 ∧ start_calls_succeed os) ∧
  (∀ msg p', StartTimerThread os p = Fatal msg p' →
     thread_ (instance p') = thread_ (instance p) ∧
     threads_ (instance p') = threads_ (instance p) ∧
     events_enabled_ (instance p') = events_enabled_ (instance p) ∧
     frequency_ (instance p') = frequency_ (instance p) ∧
     current_tick_ p' = current_tick_ p ∧
     thread_last_tick p' = thread_last_tick p ∧
     trace p' = trace p).
Proof.
  destruct (StartTimerThread_cases os p)
    as [(H0 & Hs & Hrun)|(Hbad & msg & [Hrun|Hrun])]; rewrite Hrun.
  - split; [|discriminate]. split; [auto|]. intros _. eauto.
  - split.
    + split; [intros [p' Hp]; discriminate|]. intros [H0 Hs]. tauto.
    + intros m p' [= <- <-]. auto 10.
  - split.
    + split; [intros [p' Hp]; discriminate|]. intros [H0 Hs]. tauto.
    + intros m p' [= <- <-]. cbn. auto 10.
Qed.

Lemma StartTimerThread_returns_iff_witness :
  let os := mkOS 0 0 (λ _, 99) (λ _, 0) (11, 100) (λ _, 0) (λ _ _ _, 0) in
  let p := set_instance (mkSource 0 true true 100 [7]) (start_process 100) in
  StartTimerThread os p = Fatal "Cannot create timer thread" (stop_flag_set false p) ∧
  thread_ (instance (stop_flag_set false p)) = thread_ (instance p) ∧
  trace (stop_flag_set false p) = trace p ∧
  ¬ (thread_ (instance p) = 0 ∧ start_calls_succeed os).
Proof.
  cbv zeta.
  set (os := mkOS 0 0 (λ _, 99) (λ _, 0) (11, 100) (λ _, 0) (λ _ _ _, 0)).
  set (p := set_instance (mkSource 0 true true 100 [7]) (start_process 100)).
  assert (Hrun : StartTimerThread os p =
                 Fatal "Cannot create timer thread" (stop_flag_set false p))
    by reflexivity.
  destruct (StartTimerThread_returns_iff os p) as [Hiff Hfatal].
  destruct (Hfatal _ _ Hrun) as (H1 & _ & _ & _ & _ & _ & H2).
  split; [exact Hrun|]. split; [exact H1|]. split; [exact H2|].
  intros H. apply Hiff in H. destruct H as [p' Hp']. rewrite Hrun in Hp'.
  discriminate.
Defined.

Lemma StopTimerThread_join_fails os p :
  thread_ (instance p) ≠ 0 → pthread_join os (thread_ (instance p)) ≠ 0 →
  StopTimerThread os p =
  Fatal "Cannot stop timer thread %d" (stop_flag_set true p).
Proof.
  intros H0 Hj. run. cbn.
  destruct (thread_ (instance p) =? 0) eqn:E; [lia|]. cbn.
  destruct (pthread_join os (thread_ (instance p)) =? 0) eqn:Ej; [lia|].
  reflexivity.
Qed.

(** X2: when [pthread_join] reports an error, [StopTimerThread], and with it
    [UnregisteredCallback(0)] and [Reset], abort with "Cannot stop timer
    thread"; at the abort the stop flag is set, the handle still names the
    thread and nothing else has changed. *)
Theorem StopTimerThread_join_error_fatal os p :
  thread_ (instance p) ≠ 0 →
  pthread_join os (thread_ (instance p)) ≠ 0 →
  StopTimerThread os p =
    Fatal "Cannot stop timer thread %d" (stop_flag_set true p) ∧
  UnregisteredCallback os 0 p =
    Fatal "Cannot stop timer thread %d" (stop_flag_set true p) ∧
  Reset os p = Fatal "Cannot stop timer thread %d" (stop_flag_set true p) ∧
  thread_ (instance (stop_flag_set true p)) = thread_ (instance p) ∧
  trace (stop_flag_set true p) = trace p.
Proof.
  intros H0 Hj. pose proof (StopTimerThread_join_fails os p H0 Hj) as H.
  unfold Reset, UnregisteredCallback. cbn [Z.eqb when]. auto.
Qed.

Lemma StopTimerThread_join_error_fatal_witness :
  let os := mkOS 0 0 (λ _, 99) (λ _, 0) (0, 100) (λ _, 22) (λ _ _ _, 0) in
  let p := started os (start_process 100) in
  thread_ (instance p) ≠ 0 ∧
  pthread_join os (thread_ (instance p)) ≠ 0 ∧
  StopTimerThread os p =
    Fatal "Cannot stop timer thread %d" (stop_flag_set true p) ∧
  UnregisteredCallback os 0 p =
    Fatal "Cannot stop timer thread %d" (stop_flag_set true p) ∧
  Reset os p = Fatal "Cannot stop timer thread %d" (stop_flag_set true p) ∧
  thread_ (instance (stop_flag_set true p)) = thread_ (instance p) ∧
  trace (stop_flag_set true p) = trace p.
Proof.
  cbv zeta.
  assert (H1 : thread_ (instance (started
            (mkOS 0 0 (λ _, 99) (λ _, 0) (0, 100) (λ _, 22) (λ _ _ _, 0))
            (start_process 100))) ≠ 0) by (cbn; lia).
  assert (H2 : pthread_join
            (mkOS 0 0 (λ _, 99) (λ _, 0) (0, 100) (λ _, 22) (λ _ _ _, 0))
            (thread_ (instance (started
              (mkOS 0 0 (λ _, 99) (λ _, 0) (0, 100) (λ _, 22) (λ _ _ _, 0))
              (start_process 100)))) ≠ 0) by (cbn; lia).
  split; [exact H1|]. split; [exact H2|].
  exact (StopTimerThread_join_error_fatal _ _ H1 H2).
Defined.

(** Every way [StopTimerThread] can end. *)
Lemma StopTimerThread_cases os p :
  (thread_ (instance p) = 0 ∧ StopTimerThread os p = Ok tt p) ∨
  (thread_ (instance p) ≠ 0 ∧ StopTimerThread os p = Ok tt (stopped p)) ∨
  (thread_ (instance p) ≠ 0 ∧
   StopTimerThread os p =
   Fatal "Cannot stop timer thread %d" (stop_flag_set true p)).
Proof.
  destruct (decide (thread_ (instance p) = 0)) as [H0|H0].
  - left. split; [exact H0|]. now apply StopTimerThread_idle.
  - right. destruct (decide (pthread_join os (thread_ (instance p)) = 0)).
    + left. split; [exact H0|]. now apply StopTimerThread_eq.
    + right. split; [exact H0|]. now apply StopTimerThread_join_fails.
Qed.

(** X3: [Reset] is idempotent: a second [Reset] right after the first
    changes nothing, whatever the system calls answer; if the first aborts,
    so does the pair, in the same state. *)
Theorem Reset_idempotent os os' p :
  (Reset os;; Reset os') p = Reset os p.
Proof.
  unfold Reset.
  destruct (StopTimerThread_cases os p) as [[H0 H]|[[H0 H]|[H0 H]]].
  - erewrite bind_Ok by exact H. rewrite H. now apply StopTimerThread_idle.
  - erewrite bind_Ok by exact H. rewrite H. now apply StopTimerThread_idle.
  - erewrite bind_Fatal by exact H. now rewrite H.
Qed.

(** ** More on elapsed-tick accounting *)

Lemma last_tick_other self other v p :
  self ≠ other →
  last_tick other (set_thread_last_tick self v p) = last_tick other p.
Proof. intros H. unfold last_tick. cbn. now rewrite lookup_insert_ne. Qed.

Lemma last_tick_set_current_tick_ self v p :
  last_tick self (set_current_tick_ v p) = last_tick self p.
Proof. reflexivity. Qed.

(** X4: for a thread that has a recorded tick other than 0, the call returns
    the absolute value of the difference between the counter and the
    recorded tick, whichever of the two is larger, and records the counter. *)
Theorem GetTicksSinceLastCall_abs_difference self p :
  int32_range (current_tick_ p) →
  int32_range (last_tick self p) →
  last_tick self p ≠ 0 →
  GetTicksSinceLastCall self p =
  Ok (Z.abs (current_tick_ p - last_tick self p))
     (set_thread_last_tick self (current_tick_ p) p).
Proof.
  unfold int32_range, INT32_MIN, INT32_MAX. intros Hc Hl Hnz.
  rewrite GetTicksSinceLastCall_eq.
  destruct (last_tick self p =? 0) eqn:E; [lia|]. f_equal.
  unfold to_uint32.
  destruct (current_tick_ p >? last_tick self p) eqn:G;
    rewrite Z.mod_small; lia.
Qed.

Lemma GetTicksSinceLastCall_abs_difference_witness :
  let p := set_thread_last_tick 7 2147483647
             (set_current_tick_ (-2147483648) (start_process 100)) in
  int32_range (current_tick_ p) ∧
  int32_range (last_tick 7 p) ∧
  last_tick 7 p ≠ 0 ∧
  GetTicksSinceLastCall 7 p =
  Ok (Z.abs (current_tick_ p - last_tick 7 p))
     (set_thread_last_tick 7 (current_tick_ p) p).
Proof.
  cbv zeta.
  assert (H1 : int32_range (current_tick_ (set_thread_last_tick 7 2147483647
             (set_current_tick_ (-2147483648) (start_process 100)))))
    by (unfold int32_range, INT32_MIN, INT32_MAX; cbn; lia).
  assert (H2 : int32_range (last_tick 7 (set_thread_last_tick 7 2147483647
             (set_current_tick_ (-2147483648) (start_process 100)))))
    by (rewrite last_tick_stored; unfold int32_range, INT32_MIN, INT32_MAX; lia).
  assert (H3 : last_tick 7 (set_thread_last_tick 7 2147483647
             (set_current_tick_ (-2147483648) (start_process 100))) ≠ 0)
    by (rewrite last_tick_stored; lia).
  split; [exact H1|]. split; [exact H2|]. split; [exact H3|].
  exact (GetTicksSinceLastCall_abs_difference 7 _ H1 H2 H3).
Defined.

(** X5: calls by two different threads commute: each thread gets the same
    value, and the process ends in the same state, in either order. *)
Theorem GetTicksSinceLastCall_commute s1 s2 p :
  s1 ≠ s2 →
  (a ← GetTicksSinceLastCall s1; b ← GetTicksSinceLastCall s2; mret (a, b)) p =
  (b ← GetTicksSinceLastCall s2; a ← GetTicksSinceLastCall s1; mret (a, b)) p.
Proof.
  intros Hne.
  erewrite !bind_Ok by apply GetTicksSinceLastCall_eq.
  rewrite !last_tick_other by auto.
  cbn [current_tick_ set_thread_last_tick].
  unfold mret, M_ret. f_equal.
  unfold set_thread_last_tick. cbn. f_equal.
  now apply insert_insert_ne.
Qed.

Lemma GetTicksSinceLastCall_commute_witness :
  let p := set_thread_last_tick 7 3 (set_current_tick_ 10 (start_process 100)) in
  7 ≠ 8 ∧
  (a ← GetTicksSinceLastCall 7; b ← GetTicksSinceLastCall 8; mret (a, b)) p =
  (b ← GetTicksSinceLastCall 8; a ← GetTicksSinceLastCall 7; mret (a, b)) p.
Proof.
  cbv zeta. assert (H : 7 ≠ 8) by lia. split; [exact H|].
  exact (GetTicksSinceLastCall_commute 7 8 _ H).
Defined.

(** X6: the values a thread gets over a run of calls add up to the ticks
    that went by.  For a thread that has just sampled at a positive counter
    value, and as long as the counter does not pass its largest value, the
    sum of the values returned by the following calls is the number of
    ticks in between, however the ticks are spread over the calls
    (coalesced notifications lose nothing). *)
Theorem sample_run_sum self ks : ∀ p,
  0 < current_tick_ p →
  last_tick self p = current_tick_ p →
  current_tick_ p + Z.of_nat (sum_list ks) ≤ INT32_MAX →
  ∃ rs p',
    sample_run self ks p = Ok rs p' ∧
    length rs = length ks ∧
    Z_sum rs = Z.of_nat (sum_list ks) ∧
    current_tick_ p' = current_tick_ p + Z.of_nat (sum_list ks).
Proof.
  induction ks as [|k ks IH]; intros p Hpos Hl Hmax.
  - exists [], p. cbn. repeat split; lia.
  - cbn [sample_run sum_list] in *. change (id k) with k in *.
    assert (Hr : int32_range (current_tick_ p))
      by (unfold int32_range, INT32_MIN, INT32_MAX in *; lia).
    assert (Hr' : int32_range (current_tick_ p + Z.of_nat k))
      by (unfold int32_range, INT32_MIN, INT32_MAX in *; lia).
    erewrite bind_Ok by (apply advance_ticks_eq; exact Hr).
    rewrite (to_int32_id _ Hr').
    erewrite bind_Ok by apply GetTicksSinceLastCall_eq.
    rewrite last_tick_set_current_tick_.
    cbn [current_tick_ set_current_tick_ set_thread_last_tick].
    set (q := set_thread_last_tick self (current_tick_ p + Z.of_nat k)
                (set_current_tick_ (current_tick_ p + Z.of_nat k) p)).
    assert (Hq1 : last_tick self q = current_tick_ p + Z.of_nat k)
      by apply last_tick_stored.
    assert (Hq2 : current_tick_ q = current_tick_ p + Z.of_nat k)
      by reflexivity.
    destruct (IH q) as (rs & p' & Hrun & Hlen & Hsum & Hcur).
    { rewrite Hq2. lia. }
    { now rewrite Hq1, Hq2. }
    { rewrite Hq2. lia. }
    erewrite bind_Ok by exact Hrun.
    eexists _, p'. split; [reflexivity|]. cbn [length Z_sum foldr].
    fold (Z_sum rs). rewrite Hlen, Hsum, Hcur, Hq2.
    split; [reflexivity|]. split; [|lia].
    rewrite Hl.
    destruct (current_tick_ p =? 0) eqn:E; [lia|].
    unfold INT32_MAX in *. unfold to_uint32.
    destruct (current_tick_ p + Z.of_nat k >? current_tick_ p) eqn:G;
      rewrite Z.mod_small; lia.
Qed.

Lemma sample_run_sum_witness :
  let p := set_thread_last_tick 7 5 (set_current_tick_ 5 (start_process 100)) in
  0 < current_tick_ p ∧
  last_tick 7 p = current_tick_ p ∧
  current_tick_ p + Z.of_nat (sum_list [0; 4; 1]%nat) ≤ INT32_MAX ∧
  ∃ rs p',
    sample_run 7 [0; 4; 1]%nat p = Ok rs p' ∧
    length rs = length [0; 4; 1]%nat ∧
    Z_sum rs = Z.of_nat (sum_list [0; 4; 1]%nat) ∧
    current_tick_ p' = current_tick_ p + Z.of_nat (sum_list [0; 4; 1]%nat).
Proof.
  cbv zeta.
  assert (H0 : 0 < current_tick_ (set_thread_last_tick 7 5
                 (set_current_tick_ 5 (start_process 100))))
    by (cbn; lia).
  assert (H1 : last_tick 7 (set_thread_last_tick 7 5
                 (set_current_tick_ 5 (start_process 100)))
               = current_tick_ (set_thread_last_tick 7 5
                 (set_current_tick_ 5 (start_process 100))))
    by (rewrite last_tick_stored; reflexivity).
  assert (H2 : current_tick_ (set_thread_last_tick 7 5
                 (set_current_tick_ 5 (start_process 100)))
               + Z.of_nat (sum_list [0; 4; 1]%nat) ≤ INT32_MAX)
    by (unfold INT32_MAX; cbn; lia).
  split; [exact H0|]. split; [exact H1|]. split; [exact H2|].
  exact (sample_run_sum 7 [0; 4; 1]%nat _ H0 H1 H2).
Defined.

(** ** The timer loop as a whole *)

Lemma TimerThreadMain_body_after os p :
  TimerThreadMain_body os p = Ok tt (after_iteration os p).
Proof. rewrite TimerThreadMain_body_eq. reflexivity. Qed.

Lemma attempts_fst os threads : ∀ i, (attempts os i threads).*1 = threads.
Proof.
  induction threads as [|t rest IH]; intros i; [reflexivity|].
  rewrite attempts_cons. cbn. now rewrite IH.
Qed.

Lemma survivors_sublist os i threads : survivors os i threads `sublist_of` threads.
Proof.
  unfold survivors. rewrite <- (attempts_fst os threads i) at 2.
  apply fmap_sublist, sublist_filter.
Qed.

Lemma survivors_cons os i t rest :
  survivors os i (t :: rest) =
  if decide (pthread_kill os i t SIGPROF = ESRCH)
  then survivors os (S i) rest
  else t :: survivors os (S i) rest.
Proof.
  unfold survivors. rewrite attempts_cons, filter_cons. cbn [snd].
  destruct (decide (pthread_kill os i t SIGPROF ≠ ESRCH));
    destruct (decide (pthread_kill os i t SIGPROF = ESRCH));
    try contradiction; reflexivity.
Qed.

(** Events that neither create nor join a thread. *)
Lemma live_tasks_app_neutral tr evs :
  Forall (λ e, ∀ l, live_step l e = l) evs →
  live_tasks (tr ++ evs) = live_tasks tr.
Proof.
  unfold live_tasks. rewrite fold_left_app. generalize (fold_left live_step tr []).
  induction evs as [|e evs IH]; intros l H; [reflexivity|].
  inversion H as [|? ? He Hevs]; subst. cbn. rewrite He. now apply IH.
Qed.

Lemma spec_attempt_events_neutral l :
  Forall (λ e, ∀ l, live_step l e = l) (flat_map spec_attempt_events l).
Proof.
  induction l as [|a l IH]; cbn; [constructor|].
  constructor; [reflexivity|]. apply Forall_app. split; [|exact IH].
  destruct (decide (a.2 = 0 ∨ a.2 = ESRCH)); [constructor|].
  destruct (decide (a.2 = EINVAL)); repeat constructor.
Qed.

Lemma after_iteration_frame os p :
  thread_ (instance (after_iteration os p)) = thread_ (instance p) ∧
  thread_stop_ (instance (after_iteration os p)) = thread_stop_ (instance p) ∧
  events_enabled_ (instance (after_iteration os p)) =
    events_enabled_ (instance p) ∧
  frequency_ (instance (after_iteration os p)) = frequency_ (instance p) ∧
  thread_last_tick (after_iteration os p) = thread_last_tick p ∧
  current_tick_ (after_iteration os p) = to_int32 (current_tick_ p + 1) ∧
  threads_ (instance (after_iteration os p)) `sublist_of` threads_ (instance p) ∧
  live_tasks (trace (after_iteration os p)) = live_tasks (trace p).
Proof.
  unfold after_iteration. cbv zeta.
  destruct (events_enabled_ (instance p)) eqn:E; cbn.
  - repeat split; auto using survivors_sublist.
    rewrite <- app_assoc. apply live_tasks_app_neutral.
    apply Forall_app. split; [apply spec_attempt_events_neutral|].
    repeat constructor.
  - repeat split; auto.
    apply live_tasks_app_neutral. repeat constructor.
Qed.

(** The loop never aborts; what it leaves alone and what it may change. *)
Lemma TimerThreadMain_loop_frame iterations : ∀ p,
  ∃ p',
    TimerThreadMain_loop iterations p = Ok tt p' ∧
    thread_ (instance p') = thread_ (instance p) ∧
    thread_stop_ (instance p') = thread_stop_ (instance p) ∧
    events_enabled_ (instance p') = events_enabled_ (instance p) ∧
    frequency_ (instance p') = frequency_ (instance p) ∧
    thread_last_tick p' = thread_last_tick p ∧
    threads_ (instance p') `sublist_of` threads_ (instance p) ∧
    live_tasks (trace p') = live_tasks (trace p) ∧
    (int32_range (current_tick_ p) →
     current_tick_ p' =
     if thread_stop_ (instance p) then current_tick_ p
     else to_int32 (current_tick_ p + Z.of_nat (length iterations))).
Proof.
  induction iterations as [|os later IH]; intros p.
  - exists p. split.
    + cbn. rewrite bind_gets. now destruct (thread_stop_ (instance p)).
    + repeat split; auto. intros Hr. rewrite Z.add_0_r, to_int32_id by done.
      now destruct (thread_stop_ (instance p)).
  - destruct (thread_stop_ (instance p)) eqn:Es.
    + exists p. rewrite TimerThreadMain_loop_stop by exact Es.
      repeat split; auto.
    + cbn [TimerThreadMain_loop]. rewrite bind_gets, Es.
      erewrite bind_Ok by apply TimerThreadMain_body_after.
      destruct (after_iteration_frame os p)
        as (F1 & F2 & F3 & F4 & F5 & F6 & F7 & F8).
      destruct (IH (after_iteration os p))
        as (p' & Hrun & G1 & G2 & G3 & G4 & G5 & G7 & G8 & G6).
      exists p'. split; [exact Hrun|].
      split; [congruence|]. split; [congruence|]. split; [congruence|].
      split; [congruence|]. split; [congruence|].
      split; [etrans; eassumption|]. split; [congruence|].
      intros Hr. rewrite G6 by (rewrite F6; apply to_int32_range).
      rewrite F2, Es, F6, to_int32_add_l. f_equal. cbn [length]. lia.
Qed.

(** With a non-zero frequency the thread function is its loop. *)
Lemma TimerThreadMain_nonzero iterations p :
  frequency_ (instance p) ≠ 0 →
  TimerThreadMain iterations p = TimerThreadMain_loop iterations p.
Proof.
  intros Hf. unfold TimerThreadMain. rewrite bind_gets.
  destruct (frequency_ (instance p) =? 0) eqn:E; [lia|]. reflexivity.
Qed.

(** X7: for a non-zero frequency (line 107 divides by it), the timer thread
    never aborts the process, and it leaves the task handle, the stop flag,
    the events flag, the frequency and every thread's recorded tick as they
    were; it creates and joins no thread, and the registry it leaves is the
    old one with some entries taken out, never with entries added or
    reordered. *)
Theorem TimerThreadMain_never_aborts iterations p :
  frequency_ (instance p) ≠ 0 →
  ∃ p',
    TimerThreadMain iterations p = Ok tt p' ∧
    thread_ (instance p') = thread_ (instance p) ∧
    thread_stop_ (instance p') = thread_stop_ (instance p) ∧
    events_enabled_ (instance p') = events_enabled_ (instance p) ∧
    frequency_ (instance p') = frequency_ (instance p) ∧
    thread_last_tick p' = thread_last_tick p ∧
    threads_ (instance p') `sublist_of` threads_ (instance p) ∧
    live_tasks (trace p') = live_tasks (trace p).
Proof.
  intros Hf.
  destruct (TimerThreadMain_loop_frame iterations p)
    as (p' & Hrun & F1 & F2 & F3 & F4 & F5 & F6 & F7 & _).
  exists p'. split; [|auto 10].
  rewrite TimerThreadMain_nonzero by exact Hf. exact Hrun.
Qed.

Lemma TimerThreadMain_never_aborts_witness :
  let os := mkOS 0 0 (λ _, 99) (λ _, 0) (0, 100) (λ _, 0)
              (λ _ t _, if t =? 8 then ESRCH else if t =? 9 then EINVAL else 0) in
  let p := started os (set_instance (mkSource 0 false true 100 [7; 8; 9])
                         (start_process 100)) in
  frequency_ (instance p) ≠ 0 ∧
  ∃ p',
    TimerThreadMain [os; os] p = Ok tt p' ∧
    thread_ (instance p') = thread_ (instance p) ∧
    thread_stop_ (instance p') = thread_stop_ (instance p) ∧
    events_enabled_ (instance p') = events_enabled_ (instance p) ∧
    frequency_ (instance p') = frequency_ (instance p) ∧
    thread_last_tick p' = thread_last_tick p ∧
    threads_ (instance p') `sublist_of` threads_ (instance p) ∧
    live_tasks (trace p') = live_tasks (trace p).
Proof.
  cbv zeta.
  set (os := mkOS 0 0 (λ _, 99) (λ _, 0) (0, 100) (λ _, 0)
              (λ _ t _, if t =? 8 then ESRCH else if t =? 9 then EINVAL else 0)).
  set (p := started os (set_instance (mkSource 0 false true 100 [7; 8; 9])
                          (start_process 100))).
  assert (Hf : frequency_ (instance p) ≠ 0) by (cbn; lia).
  split; [exact Hf|].
  exact (TimerThreadMain_never_aborts [os; os] p Hf).
Defined.

(** X8: stopping is cooperative and ticks are counted one per iteration
    (for a non-zero frequency): with the stop flag set the thread function returns at once, leaving the
    whole state as it was; with the flag clear, each iteration adds one to
    the shared counter, wrapping around in 32 bits. *)
Theorem TimerThreadMain_counts_ticks iterations p :
  frequency_ (instance p) ≠ 0 →
  int32_range (current_tick_ p) →
  ∃ p',
    TimerThreadMain iterations p = Ok tt p' ∧
    (thread_stop_ (instance p) = true → p' = p) ∧
    (thread_stop_ (instance p) = false →
     current_tick_ p' =
     to_int32 (current_tick_ p + Z.of_nat (length iterations))).
Proof.
  intros Hf Hr. rewrite TimerThreadMain_nonzero by exact Hf.
  destruct (thread_stop_ (instance p)) eqn:Es.
  - exists p. rewrite TimerThreadMain_loop_stop by exact Es.
    split; [reflexivity|]. split; [reflexivity|discriminate].
  - destruct (TimerThreadMain_loop_frame iterations p)
      as (p' & Hrun & _ & _ & _ & _ & _ & _ & _ & Ht).
    exists p'. split; [exact Hrun|]. split; [discriminate|].
    intros _. rewrite Ht, Es by exact Hr. reflexivity.
Qed.

Lemma TimerThreadMain_counts_ticks_witness :
  let os := mkOS 0 0 (λ _, 99) (λ _, 0) (0, 100) (λ _, 0) (λ _ _ _, 0) in
  let p := set_current_tick_ 2147483646 (started os (start_process 100)) in
  frequency_ (instance p) ≠ 0 ∧
  int32_range (current_tick_ p) ∧
  thread_stop_ (instance p) = false ∧
  ∃ p',
    TimerThreadMain [os; os; os] p = Ok tt p' ∧
    current_tick_ p' = -2147483647.
Proof.
  cbv zeta.
  set (os := mkOS 0 0 (λ _, 99) (λ _, 0) (0, 100) (λ _, 0) (λ _ _ _, 0)).
  set (p := set_current_tick_ 2147483646 (started os (start_process 100))).
  assert (Hr : int32_range (current_tick_ p))
    by (unfold int32_range, INT32_MIN, INT32_MAX; cbn; lia).
  assert (Hf : frequency_ (instance p) ≠ 0) by (cbn; lia).
  split; [exact Hf|]. split; [exact Hr|]. split; [reflexivity|].
  destruct (TimerThreadMain_counts_ticks [os; os; os] p Hf Hr)
    as (p' & Hrun & _ & Ht).
  exists p'. split; [exact Hrun|]. rewrite Ht by reflexivity. reflexivity.
Defined.

Lemma TimerThreadMain_loop_disabled iterations : ∀ p,
  events_enabled_ (instance p) = false →
  thread_stop_ (instance p) = false →
  int32_range (current_tick_ p) →
  TimerThreadMain_loop iterations p =
  Ok tt (add_events
           (replicate (length iterations)
              (EvSleep (sleep_us (frequency_ (instance p)))))
           (set_current_tick_
              (to_int32 (current_tick_ p + Z.of_nat (length iterations))) p)).
Proof.
  induction iterations as [|os later IH]; intros p He Hs Hr.
  - cbn [TimerThreadMain_loop length replicate]. rewrite bind_gets, Hs.
    rewrite Z.add_0_r, to_int32_id, set_current_tick__same, add_events_nil
      by exact Hr.
    reflexivity.
  - cbn [TimerThreadMain_loop]. rewrite bind_gets, Hs.
    erewrite bind_Ok by apply TimerThreadMain_body_after.
    assert (Ha : after_iteration os p =
                 add_event (EvSleep (sleep_us (frequency_ (instance p))))
                   (set_current_tick_ (to_int32 (current_tick_ p + 1)) p)).
    { unfold after_iteration. cbv zeta. now rewrite He. }
    rewrite Ha, IH; [|exact He|exact Hs|apply to_int32_range].
    cbn [length replicate current_tick_ add_event add_events set_current_tick_
         instance frequency_]. rewrite to_int32_add_l.
    unfold add_events, set_current_tick_. cbn. rewrite <- app_assoc.
    do 3 f_equal. lia.
Qed.

(** X9: with events disabled (and a non-zero frequency) the timer thread
    only keeps time: each
    iteration adds one tick and one sleep of 1000000 / frequency
    microseconds; no signal is sent and the registry is not touched,
    whatever [pthread_kill] would answer. *)
Theorem TimerThreadMain_events_disabled iterations p :
  frequency_ (instance p) ≠ 0 →
  events_enabled_ (instance p) = false →
  thread_stop_ (instance p) = false →
  int32_range (current_tick_ p) →
  TimerThreadMain iterations p =
  Ok tt (add_events
           (replicate (length iterations)
              (EvSleep (sleep_us (frequency_ (instance p)))))
           (set_current_tick_
              (to_int32 (current_tick_ p + Z.of_nat (length iterations))) p)).
Proof.
  intros Hf He Hs Hr. rewrite TimerThreadMain_nonzero by exact Hf.
  now apply TimerThreadMain_loop_disabled.
Qed.

Lemma TimerThreadMain_events_disabled_witness :
  let os := mkOS 0 0 (λ _, 99) (λ _, 0) (0, 100) (λ _, 0) (λ _ _ _, ESRCH) in
  let p := started os (set_instance (mkSource 0 false false 100 [7; 8])
                         (start_process 100)) in
  frequency_ (instance p) ≠ 0 ∧
  events_enabled_ (instance p) = false ∧
  thread_stop_ (instance p) = false ∧
  int32_range (current_tick_ p) ∧
  TimerThreadMain [os; os] p =
  Ok tt (add_events [EvSleep 10000; EvSleep 10000] (set_current_tick_ 2 p)).
Proof.
  cbv zeta.
  set (os := mkOS 0 0 (λ _, 99) (λ _, 0) (0, 100) (λ _, 0) (λ _ _ _, ESRCH)).
  set (p := started os (set_instance (mkSource 0 false false 100 [7; 8])
                          (start_process 100))).
  assert (Hr : int32_range (current_tick_ p))
    by (unfold int32_range, INT32_MIN, INT32_MAX; cbn; lia).
  assert (Hf : frequency_ (instance p) ≠ 0) by (cbn; lia).
  split; [exact Hf|].
  split; [reflexivity|]. split; [reflexivity|]. split; [exact Hr|].
  exact (TimerThreadMain_events_disabled [os; os] p Hf eq_refl eq_refl Hr).
Defined.

(** ** The callback count and the running task *)

(** Once the stop flag is set the thread function returns without another
    iteration; while it is clear an iteration is made. *)
Lemma TimerThreadMain_flag_set iterations p :
  frequency_ (instance p) ≠ 0 →
  thread_stop_ (instance p) = true →
  TimerThreadMain iterations p = Ok tt p.
Proof.
  intros Hf Hs. rewrite TimerThreadMain_nonzero by exact Hf.
  now apply TimerThreadMain_loop_stop.
Qed.

Lemma TimerThreadMain_flag_clear os p :
  frequency_ (instance p) ≠ 0 →
  thread_stop_ (instance p) = false →
  ∃ p', TimerThreadMain [os] p = Ok tt p' ∧
        current_tick_ p' = to_int32 (current_tick_ p + 1).
Proof.
  intros Hf Hs. rewrite TimerThreadMain_nonzero by exact Hf.
  exists (after_iteration os p). split.
  - cbn [TimerThreadMain_loop]. rewrite bind_gets, Hs.
    erewrite bind_Ok by apply TimerThreadMain_body_after.
    rewrite bind_gets.
    now destruct (thread_stop_ (instance (after_iteration os p))).
  - apply after_iteration_frame.
Qed.

(** A stop made on a running source reaches [pthread_join] with the stop
    flag set: that state is the state of the abort when the join reports an
    error. *)
Lemma StopTimerThread_flag_before_join os p :
  frequency_ (instance p) ≠ 0 →
  thread_ (instance p) ≠ 0 →
  pthread_join os (thread_ (instance p)) ≠ 0 →
  ∃ q, StopTimerThread os p = Fatal "Cannot stop timer thread %d" q ∧
       thread_stop_ (instance q) = true ∧
       thread_ (instance q) = thread_ (instance p) ∧
       ∀ iterations, TimerThreadMain iterations q = Ok tt q.
Proof.
  intros Hf H0 Hj. exists (stop_flag_set true p).
  split; [now apply StopTimerThread_join_fails|].
  split; [reflexivity|]. split; [reflexivity|].
  intros iterations. now apply TimerThreadMain_flag_set.
Qed.

(** From any state in which the handle is non-zero exactly when the count is
    at least 1, and the stop flag is clear while it is, a sequence of
    count-reporting calls keeps it so. *)
Lemma callback_calls_invariant calls : ∀ count p,
  0 ≤ count →
  reports_counts count calls →
  Forall (λ c, os_succeeds c.1) calls →
  handle_tracks_task p →
  (thread_ (instance p) ≠ 0 ↔ 1 ≤ count) →
  (1 ≤ count → thread_stop_ (instance p) = false) →
  (count < 1 → trace p ≠ [] → thread_stop_ (instance p) = true) →
  ∃ p',
    callback_calls calls p = Ok tt p' ∧
    (thread_ (instance p') ≠ 0 ↔ 1 ≤ count_after count calls) ∧
    handle_tracks_task p' ∧
    trace p' =
      trace p ++ spec_lifecycle_events count (thread_ (instance p)) calls ∧
    (1 ≤ count_after count calls → thread_stop_ (instance p') = false) ∧
    (count_after count calls < 1 → trace p' ≠ [] →
     thread_stop_ (instance p') = true) ∧
    frequency_ (instance p') = frequency_ (instance p).
Proof.
  induction calls as [|[os [n|n]] calls IH];
    intros count p Hc Hrep Hos Htr Hiff Hclear Hset.
  - exists p. cbn. rewrite app_nil_r. auto 10.
  - destruct Hrep as [-> Hrep]. inversion Hos as [|? ? Hok Hos']; subst.
    cbn [fst] in Hok.
    cbn [callback_calls callback_step snd fst count_after spec_lifecycle_events].
    destruct (decide (count = 0)) as [->|Hne].
    + assert (H0 : thread_ (instance p) = 0)
        by (destruct (decide (thread_ (instance p) = 0)); [done|]; lia).
      assert (Hh : (pthread_create os).2 ≠ 0) by apply Hok.
      cbn [Z.add Z.eqb Pos.eqb andb].
      erewrite bind_Ok
        by (unfold RegisteredCallback; cbn; apply StartTimerThread_eq; done).
      assert (Hiff1 : thread_ (instance (started os p)) ≠ 0 ↔ 1 ≤ 1)
        by (cbn; split; [lia | done]).
      assert (Hclear1 : 1 ≤ 1 → thread_stop_ (instance (started os p)) = false)
        by reflexivity.
      assert (Hset1 : 1 < 1 → trace (started os p) ≠ [] →
                      thread_stop_ (instance (started os p)) = true) by lia.
      destruct (IH 1 (started os p) ltac:(lia) Hrep Hos'
                  (started_tracks os p H0 Hh Htr) Hiff1 Hclear1 Hset1)
        as (p' & Hrun & Hiff' & Htr' & Htrace & Hc' & Hs' & Hf').
      exists p'. split; [exact Hrun|]. split; [exact Hiff'|].
      split; [exact Htr'|]. split; [|auto].
      rewrite Htrace. cbn. rewrite <- app_assoc. reflexivity.
    + assert (E1 : (count + 1 =? 1) = false) by lia.
      assert (E0 : (count =? 0) = false) by lia.
      rewrite E0. cbn [andb].
      erewrite bind_Ok by (unfold RegisteredCallback; rewrite E1; reflexivity).
      assert (Hiff1 : thread_ (instance p) ≠ 0 ↔ 1 ≤ count + 1)
        by (split; [lia | intros _; apply Hiff; lia]).
      assert (Hclear1 : 1 ≤ count + 1 → thread_stop_ (instance p) = false)
        by (intros _; apply Hclear; lia).
      assert (Hset1 : count + 1 < 1 → trace p ≠ [] →
                      thread_stop_ (instance p) = true) by lia.
      destruct (IH (count + 1) p ltac:(lia) Hrep Hos' Htr Hiff1 Hclear1 Hset1)
        as (p' & Hrun & Hiff' & Htr' & Htrace & Hc' & Hs' & Hf').
      exists p'. auto 10.
  - destruct Hrep as (-> & Hn & Hrep). inversion Hos as [|? ? Hok Hos']; subst.
    cbn [fst] in Hok.
    cbn [callback_calls callback_step snd fst count_after spec_lifecycle_events].
    destruct (decide (count = 1)) as [->|Hne].
    + assert (H0 : thread_ (instance p) ≠ 0) by (apply Hiff; lia).
      cbn [Z.sub Z.add Z.opp Z.pos_sub Z.eqb Pos.eqb andb].
      erewrite bind_Ok
        by (unfold UnregisteredCallback; cbn; apply StopTimerThread_eq;
            [done | apply Hok]).
      assert (Hiff1 : thread_ (instance (stopped p)) ≠ 0 ↔ 1 ≤ 0)
        by (cbn; split; [done | lia]).
      assert (Hclear1 : 1 ≤ 0 → thread_stop_ (instance (stopped p)) = false)
        by lia.
      assert (Hset1 : 0 < 1 → trace (stopped p) ≠ [] →
                      thread_stop_ (instance (stopped p)) = true)
        by reflexivity.
      destruct (IH 0 (stopped p) ltac:(lia) Hrep Hos'
                  (stopped_tracks p H0 Htr) Hiff1 Hclear1 Hset1)
        as (p' & Hrun & Hiff' & Htr' & Htrace & Hc' & Hs' & Hf').
      exists p'. split; [exact Hrun|]. split; [exact Hiff'|].
      split; [exact Htr'|]. split; [|auto].
      rewrite Htrace. cbn. rewrite <- app_assoc. reflexivity.
    + assert (E0 : (count - 1 =? 0) = false) by lia.
      assert (E1 : (count =? 1) = false) by lia.
      rewrite E1. cbn [andb].
      erewrite bind_Ok by (unfold UnregisteredCallback; rewrite E0; reflexivity).
      assert (Hiff1 : thread_ (instance p) ≠ 0 ↔ 1 ≤ count - 1)
        by (split; [lia | intros _; apply Hiff; lia]).
      assert (Hclear1 : 1 ≤ count - 1 → thread_stop_ (instance p) = false)
        by (intros _; apply Hclear; lia).
      assert (Hset1 : count - 1 < 1 → trace p ≠ [] →
                      thread_stop_ (instance p) = true) by lia.
      destruct (IH (count - 1) p ltac:(lia) Hrep Hos' Htr Hiff1 Hclear1 Hset1)
        as (p' & Hrun & Hiff' & Htr' & Htrace & Hc' & Hs' & Hf').
      exists p'. auto 10.
Qed.

(** C4: after any sequence of [RegisteredCallback] / [UnregisteredCallback]
    calls that report the running total, made on a source freshly
    constructed with a non-zero frequency and with system calls that
    succeed, no call aborts; the task handle is non-zero, and exactly one
    timer thread is live, if and only if the count is at least 1; threads
    are created and joined exactly at the 0-to-1 and 1-to-0 transitions of
    the count.  The task is running in the loop's own terms: while the count
    is at least 1 the stop flag is clear, also after a restart, so the
    thread function makes its next iteration; a stop made then reaches
    [pthread_join] with the flag already set, so the thread function
    returns and the join can end; after the last stop the flag the loop
    tests is set. *)
Theorem callback_calls_running_iff_count frequency calls :
  frequency ≠ 0 →
  reports_counts 0 calls →
  Forall (λ c, os_succeeds c.1) calls →
  ∃ p,
    callback_calls calls (start_process frequency) = Ok tt p ∧
    (thread_ (instance p) ≠ 0 ↔ 1 ≤ count_after 0 calls) ∧
    live_tasks (trace p) =
      (if decide (1 ≤ count_after 0 calls) then [thread_ (instance p)] else []) ∧
    trace p = spec_lifecycle_events 0 0 calls ∧
    (1 ≤ count_after 0 calls →
     thread_stop_ (instance p) = false ∧
     (∀ os, ∃ p', TimerThreadMain [os] p = Ok tt p' ∧
                  current_tick_ p' = to_int32 (current_tick_ p + 1)) ∧
     (∀ os, pthread_join os (thread_ (instance p)) ≠ 0 →
            ∃ q, StopTimerThread os p = Fatal "Cannot stop timer thread %d" q ∧
                 thread_stop_ (instance q) = true ∧
                 thread_ (instance q) = thread_ (instance p) ∧
                 ∀ iterations, TimerThreadMain iterations q = Ok tt q)) ∧
    (count_after 0 calls < 1 → trace p ≠ [] →
     thread_stop_ (instance p) = true ∧
     ∀ iterations, TimerThreadMain iterations p = Ok tt p).
Proof.
  intros Hfreq Hrep Hos.
  destruct (callback_calls_invariant calls 0 (start_process frequency))
    as (p & Hrun & Hiff & Htr & Htrace & Hclear & Hset & Hf); try done.
  assert (Hfp : frequency_ (instance p) ≠ 0) by (rewrite Hf; exact Hfreq).
  exists p. split; [exact Hrun|]. split; [exact Hiff|].
  split; [|split; [exact Htrace|]].
  - unfold handle_tracks_task in Htr. rewrite Htr.
    destruct (decide (1 ≤ count_after 0 calls)) as [H1|H1].
    + apply Hiff in H1. destruct (thread_ (instance p) =? 0) eqn:E; [lia|done].
    + destruct (thread_ (instance p) =? 0) eqn:E; [done|].
      exfalso. apply H1, Hiff. lia.
  - split.
    + intros H1. split; [now apply Hclear|]. split.
      * intros os. apply TimerThreadMain_flag_clear; auto.
      * intros os Hj. apply StopTimerThread_flag_before_join; auto.
        now apply Hiff.
    + intros H0 Hne. split; [now apply Hset|].
      intros iterations. apply TimerThreadMain_flag_set; auto.
Qed.

Lemma callback_calls_running_iff_count_witness :
  let os h := mkOS 0 0 (λ _, 99) (λ _, 0) (0, h) (λ _, 0) (λ _ _ _, 0) in
  let calls := [(os 100, Registered 1); (os 101, Registered 2);
                (os 102, Unregistered 1); (os 103, Unregistered 0);
                (os 104, Registered 1)] in
  100 ≠ 0 ∧
  reports_counts 0 calls ∧
  Forall (λ c, os_succeeds c.1) calls ∧
  ∃ p,
    callback_calls calls (start_process 100) = Ok tt p ∧
    (thread_ (instance p) ≠ 0 ↔ 1 ≤ count_after 0 calls) ∧
    live_tasks (trace p) =
      (if decide (1 ≤ count_after 0 calls) then [thread_ (instance p)] else []) ∧
    trace p = spec_lifecycle_events 0 0 calls ∧
    (1 ≤ count_after 0 calls →
     thread_stop_ (instance p) = false ∧
     (∀ os, ∃ p', TimerThreadMain [os] p = Ok tt p' ∧
                  current_tick_ p' = to_int32 (current_tick_ p + 1)) ∧
     (∀ os, pthread_join os (thread_ (instance p)) ≠ 0 →
            ∃ q, StopTimerThread os p = Fatal "Cannot stop timer thread %d" q ∧
                 thread_stop_ (instance q) = true ∧
                 thread_ (instance q) = thread_ (instance p) ∧
                 ∀ iterations, TimerThreadMain iterations q = Ok tt q)) ∧
    (count_after 0 calls < 1 → trace p ≠ [] →
     thread_stop_ (instance p) = true ∧
     ∀ iterations, TimerThreadMain iterations p = Ok tt p).
Proof.
  cbv zeta.
  assert (Hos : ∀ h, h ≠ 0 →
            os_succeeds (mkOS 0 0 (λ _, 99) (λ _, 0) (0, h) (λ _, 0) (λ _ _ _, 0))).
  { intros h Hh. unfold os_succeeds. cbn. repeat split; lia. }
  assert (Hf : 100 ≠ 0) by lia.
  assert (Hrep : reports_counts 0
            [(mkOS 0 0 (λ _, 99) (λ _, 0) (0, 100) (λ _, 0) (λ _ _ _, 0), Registered 1);
             (mkOS 0 0 (λ _, 99) (λ _, 0) (0, 101) (λ _, 0) (λ _ _ _, 0), Registered 2);
             (mkOS 0 0 (λ _, 99) (λ _, 0) (0, 102) (λ _, 0) (λ _ _ _, 0), Unregistered 1);
             (mkOS 0 0 (λ _, 99) (λ _, 0) (0, 103) (λ _, 0) (λ _ _ _, 0), Unregistered 0);
             (mkOS 0 0 (λ _, 99) (λ _, 0) (0, 104) (λ _, 0) (λ _ _ _, 0), Registered 1)])
    by (cbn; repeat split; lia).
  assert (Hall : Forall (λ c : OS * callback_call, os_succeeds c.1)
            [(mkOS 0 0 (λ _, 99) (λ _, 0) (0, 100) (λ _, 0) (λ _ _ _, 0), Registered 1);
             (mkOS 0 0 (λ _, 99) (λ _, 0) (0, 101) (λ _, 0) (λ _ _ _, 0), Registered 2);
             (mkOS 0 0 (λ _, 99) (λ _, 0) (0, 102) (λ _, 0) (λ _ _ _, 0), Unregistered 1);
             (mkOS 0 0 (λ _, 99) (λ _, 0) (0, 103) (λ _, 0) (λ _ _ _, 0), Unregistered 0);
             (mkOS 0 0 (λ _, 99) (λ _, 0) (0, 104) (λ _, 0) (λ _ _ _, 0), Registered 1)])
    by (repeat constructor; apply Hos; lia).
  split; [exact Hf|]. split; [exact Hrep|]. split; [exact Hall|].
  exact (callback_calls_running_iff_count 100 _ Hf Hrep Hall).
Defined.



(** ** What a delivery pass does to live and to exited threads *)

Lemma pass_all_delivered os threads : ∀ i,
  (∀ j t, t ∈ threads → pthread_kill os j t SIGPROF = 0) →
  survivors os i threads = threads ∧
  flat_map spec_attempt_events (attempts os i threads) =
  (λ t, EvKill t SIGPROF 0) <$> threads.
Proof.
  induction threads as [|t rest IH]; intros i H; [split; reflexivity|].
  assert (Ht : pthread_kill os i t SIGPROF = 0) by (apply H; left).
  destruct (IH (S i)) as [IH1 IH2]; [intros j u Hu; apply H; now right|].
  rewrite survivors_cons, attempts_cons, Ht. cbn [flat_map].
  rewrite IH1, IH2. unfold spec_attempt_events. cbn [fst snd].
  destruct (decide (0 = ESRCH)) as [N|_]; [discriminate|].
  destruct (decide (0 = 0 ∨ 0 = ESRCH)) as [_|N]; [|exfalso; auto].
  split; reflexivity.
Qed.

Lemma survivors_reaps os t threads : ∀ i,
  (∀ j, pthread_kill os j t SIGPROF = ESRCH) →
  t ∉ survivors os i threads.
Proof.
  induction threads as [|u rest IH]; intros i H.
  - unfold survivors. cbn. apply not_elem_of_nil.
  - rewrite survivors_cons.
    destruct (decide (pthread_kill os i u SIGPROF = ESRCH)) as [E|E].
    + now apply IH.
    + intros [->|Hin]%elem_of_cons; [apply E, H|]. now apply (IH (S i)).
Qed.

Lemma survivors_keeps os u threads : ∀ i,
  (∀ j, pthread_kill os j u SIGPROF ≠ ESRCH) →
  occurrences u (survivors os i threads) = occurrences u threads.
Proof.
  induction threads as [|t rest IH]; intros i H; [reflexivity|].
  rewrite survivors_cons. unfold occurrences in *.
  destruct (decide (pthread_kill os i t SIGPROF = ESRCH)) as [E|E].
  - rewrite filter_cons. destruct (decide (t = u)) as [->|N].
    + exfalso. now apply (H i).
    + now apply IH.
  - rewrite !filter_cons. destruct (decide (t = u)); cbn [length];
      now rewrite IH.
Qed.

(** X10: when every registered thread is alive (each [pthread_kill] answers
    0), one iteration with events enabled sends exactly one SIGPROF per
    registry entry, in registry order and once per duplicate entry, logs
    nothing, and leaves the registry as it was. *)
Theorem TimerThreadMain_body_all_delivered os p :
  frequency_ (instance p) ≠ 0 →
  events_enabled_ (instance p) = true →
  (∀ j t, t ∈ threads_ (instance p) → pthread_kill os j t SIGPROF = 0) →
  ∃ p',
    TimerThreadMain_body os p = Ok tt p' ∧
    threads_ (instance p') = threads_ (instance p) ∧
    trace p' =
      trace p ++ ((λ t, EvKill t SIGPROF 0) <$> threads_ (instance p))
      ++ [EvSleep (sleep_us (frequency_ (instance p)))].
Proof.
  intros _ He Hk. rewrite TimerThreadMain_body_after. eexists.
  split; [reflexivity|].
  destruct (pass_all_delivered os (threads_ (instance p)) 0 Hk) as [H1 H2].
  unfold after_iteration. cbv zeta. rewrite He, H1, H2. cbn.
  split; [reflexivity|]. now rewrite <- app_assoc.
Qed.

Lemma TimerThreadMain_body_all_delivered_witness :
  let os := mkOS 0 0 (λ _, 99) (λ _, 0) (0, 100) (λ _, 0) (λ _ _ _, 0) in
  let p := started os (set_instance (mkSource 0 false true 100 [7; 8; 7])
                         (start_process 100)) in
  frequency_ (instance p) ≠ 0 ∧
  events_enabled_ (instance p) = true ∧
  (∀ j t, t ∈ threads_ (instance p) → pthread_kill os j t SIGPROF = 0) ∧
  ∃ p',
    TimerThreadMain_body os p = Ok tt p' ∧
    threads_ (instance p') = [7; 8; 7] ∧
    trace p' = [EvCreate 100; EvKill 7 SIGPROF 0; EvKill 8 SIGPROF 0;
                EvKill 7 SIGPROF 0; EvSleep 10000].
Proof.
  cbv zeta.
  set (os := mkOS 0 0 (λ _, 99) (λ _, 0) (0, 100) (λ _, 0) (λ _ _ _, 0)).
  set (p := started os (set_instance (mkSource 0 false true 100 [7; 8; 7])
                          (start_process 100))).
  assert (Hf : frequency_ (instance p) ≠ 0) by (cbn; lia).
  assert (Hk : ∀ (j : nat) (t : Z), t ∈ threads_ (instance p) →
                 pthread_kill os j t SIGPROF = 0) by reflexivity.
  split; [exact Hf|]. split; [reflexivity|]. split; [exact Hk|].
  exact (TimerThreadMain_body_all_delivered os p Hf eq_refl Hk).
Defined.

(** X11: a thread that has exited (every [pthread_kill] on it answers ESRCH)
    is gone from the registry after one iteration with events enabled, all
    of its entries at once; a thread whose [pthread_kill] never answers
    ESRCH keeps every one of its entries. *)
Theorem TimerThreadMain_body_reaps_exited os p t :
  frequency_ (instance p) ≠ 0 →
  events_enabled_ (instance p) = true →
  (∀ j, pthread_kill os j t SIGPROF = ESRCH) →
  ∃ p',
    TimerThreadMain_body os p = Ok tt p' ∧
    (t ∉ threads_ (instance p')) ∧
    ∀ u, (∀ j, pthread_kill os j u SIGPROF ≠ ESRCH) →
         occurrences u (threads_ (instance p')) =
         occurrences u (threads_ (instance p)).
Proof.
  intros _ He Hk. rewrite TimerThreadMain_body_after. eexists.
  split; [reflexivity|].
  unfold after_iteration. cbv zeta. rewrite He. cbn.
  split; [now apply survivors_reaps|].
  intros u Hu. now apply survivors_keeps.
Qed.

Lemma TimerThreadMain_body_reaps_exited_witness :
  let os := mkOS 0 0 (λ _, 99) (λ _, 0) (0, 100) (λ _, 0)
              (λ _ t _, if t =? 8 then ESRCH else 0) in
  let p := started os (set_instance (mkSource 0 false true 100 [8; 7; 8; 9])
                         (start_process 100)) in
  frequency_ (instance p) ≠ 0 ∧
  events_enabled_ (instance p) = true ∧
  (∀ j, pthread_kill os j 8 SIGPROF = ESRCH) ∧
  ∃ p',
    TimerThreadMain_body os p = Ok tt p' ∧
    (8 ∉ threads_ (instance p')) ∧
    ∀ u, (∀ j, pthread_kill os j u SIGPROF ≠ ESRCH) →
         occurrences u (threads_ (instance p')) =
         occurrences u (threads_ (instance p)).
Proof.
  cbv zeta.
  set (os := mkOS 0 0 (λ _, 99) (λ _, 0) (0, 100) (λ _, 0)
              (λ _ t _, if t =? 8 then ESRCH else 0)).
  set (p := started os (set_instance (mkSource 0 false true 100 [8; 7; 8; 9])
                          (start_process 100))).
  assert (Hf : frequency_ (instance p) ≠ 0) by (cbn; lia).
  assert (Hk : ∀ j : nat, pthread_kill os j 8 SIGPROF = ESRCH) by reflexivity.
  split; [exact Hf|]. split; [reflexivity|]. split; [exact Hk|].
  exact (TimerThreadMain_body_reaps_exited os p 8 Hf eq_refl Hk).
Defined.

(** ** The wake interval *)

(** X12: for a positive frequency the wake interval is the whole number of
    microseconds with frequency * interval <= 1000000 < frequency *
    (interval + 1); it is 0, so that the loop does not sleep at all, exactly
    when the frequency exceeds 1000000. *)
Theorem sleep_us_interval frequency :
  0 < frequency →
  frequency * sleep_us frequency ≤ 1000000 < frequency * (sleep_us frequency + 1) ∧
  0 ≤ sleep_us frequency ≤ 1000000 ∧
  (sleep_us frequency = 0 ↔ 1000000 < frequency).
Proof.
  intros Hf. unfold sleep_us, to_uint32.
  rewrite Z.quot_div_nonneg by lia.
  pose proof (Z.mul_div_le 1000000 frequency Hf) as H1.
  pose proof (Z.mul_succ_div_gt 1000000 frequency Hf) as H2.
  assert (H3 : 0 ≤ 1000000 `div` frequency) by (apply Z.div_pos; lia).
  assert (H4 : 1000000 `div` frequency ≤ 1000000) by nia.
  rewrite Z.mod_small by lia.
  split; [lia|]. split; [lia|]. split.
  - intros E. rewrite E in H2. lia.
  - intros Hbig. apply Z.div_small. lia.
Qed.

Lemma sleep_us_interval_witness :
  0 < 300 ∧
  300 * sleep_us 300 ≤ 1000000 < 300 * (sleep_us 300 + 1) ∧
  0 ≤ sleep_us 300 ≤ 1000000 ∧
  (sleep_us 300 = 0 ↔ 1000000 < 300).
Proof.
  assert (H : 0 < 300) by lia. split; [exact H|].
  exact (sleep_us_interval 300 H).
Defined.

(** ** Invariants over arbitrary sequences of calls and timer iterations *)

Lemma member_step_shape c p : step_shape c p (final_state (member_step c p)).
Proof.
  destruct c as [self n| | |self|os n|os n|os|os]; cbn [member_step step_shape].
  - reflexivity.
  - reflexivity.
  - reflexivity.
  - erewrite bind_Ok by apply GetTicksSinceLastCall_eq. reflexivity.
  - unfold RegisteredCallback. destruct (n =? 1); cbn [when]; [|now left].
    destruct (StartTimerThread_cases os p)
      as [(H0 & Hs & Hrun)|(_ & msg & [Hrun|Hrun])]; rewrite Hrun; cbn.
    + right. right. split; [exact H0|]. split; [apply Hs|reflexivity].
    + now left.
    + right. now left.
  - unfold UnregisteredCallback. destruct (n =? 0); cbn [when]; [|now left].
    destruct (StopTimerThread_cases os p) as [[H0 H]|[[H0 H]|[H0 H]]];
      rewrite H; cbn; auto.
  - unfold Reset.
    destruct (StopTimerThread_cases os p) as [[H0 H]|[[H0 H]|[H0 H]]];
      rewrite H; cbn; auto.
  - rewrite bind_gets.
    destruct (thread_ (instance p) =? 0) eqn:E; [now left|].
    cbn [TimerThreadMain_loop]. rewrite bind_gets.
    destruct (thread_stop_ (instance p)); [now left|].
    erewrite bind_Ok by apply TimerThreadMain_body_after.
    right. split; [lia|].
    rewrite bind_gets. now destruct (thread_stop_ (instance (after_iteration os p))).
Qed.

Lemma member_calls_cons c rest p :
  final_state (member_calls (c :: rest) p) =
  match member_step c p with
  | Ok _ q => final_state (member_calls rest q)
  | Fatal _ q => q
  end.
Proof.
  cbn [member_calls]. unfold mbind, M_bind.
  now destruct (member_step c p).
Qed.

(** A property kept by every step is kept by every sequence, to the state
    of the return or of the abort. *)
Lemma member_calls_invariant (I : Process → Prop) (ok : member_call → Prop) :
  (∀ c p q, ok c → step_shape c p q → I p → I q) →
  ∀ calls p, Forall ok calls → I p → I (final_state (member_calls calls p)).
Proof.
  intros Hstep. induction calls as [|c rest IH]; intros p Hok Hp; [exact Hp|].
  inversion Hok as [|? ? Hc Hrest]; subst.
  rewrite member_calls_cons.
  pose proof (Hstep c p _ Hc (member_step_shape c p) Hp) as Hq.
  destruct (member_step c p) as [a q|msg q]; cbn in Hq; [|exact Hq].
  now apply IH.
Qed.

(** X13: at most one timer thread exists at any time, and the handle names
    it: whatever public member functions are called in whatever order, with
    timer iterations in between and system calls failing or not, the live
    timer threads are exactly the one the handle names, or none when the
    handle is zero; this also holds in the state of an abort. *)
Theorem member_calls_one_timer_task calls p :
  frequency_ (instance p) ≠ 0 →
  handle_tracks_task p →
  Forall create_gives_handle calls →
  handle_tracks_task (final_state (member_calls calls p)) ∧
  (length (live_tasks (trace (final_state (member_calls calls p)))) ≤ 1)%nat.
Proof.
  intros _ Hp Hok.
  assert (H : handle_tracks_task (final_state (member_calls calls p))).
  { revert calls p Hok Hp. apply member_calls_invariant.
    intros c q q' Hc Hshape Hq.
    destruct c as [self n| | |self|os n|os n|os|os];
      cbn [step_shape create_gives_handle] in *.
    - now subst q'.
    - now subst q'.
    - now subst q'.
    - now subst q'.
    - destruct Hshape as [->|[->|(H0 & Hrc & ->)]]; [done|done|].
      apply started_tracks; auto.
    - destruct Hshape as [->|[->|(H0 & ->)]]; [done|done|].
      now apply stopped_tracks.
    - destruct Hshape as [->|[->|(H0 & ->)]]; [done|done|].
      now apply stopped_tracks.
    - destruct Hshape as [->|(H0 & ->)]; [done|].
      destruct (after_iteration_frame os q) as (F1 & _ & _ & _ & _ & _ & _ & F8).
      unfold handle_tracks_task. now rewrite F1, F8. }
  split; [exact H|]. unfold handle_tracks_task in H. rewrite H.
  destruct (thread_ (instance (final_state (member_calls calls p))) =? 0);
    cbn; lia.
Qed.

Lemma member_calls_one_timer_task_witness :
  let os h := mkOS 0 0 (λ _, 99) (λ _, 0) (0, h) (λ _, 0) (λ _ _ _, 0) in
  let calls := [CallRegisterThread 7 0; CallEnableEvents;
                CallRegisteredCallback (os 100) 1; TimerIteration (os 0);
                CallGetTicksSinceLastCall 7;
                CallRegisteredCallback (os 101) 1] in
  frequency_ (instance (start_process 100)) ≠ 0 ∧
  handle_tracks_task (start_process 100) ∧
  Forall create_gives_handle calls ∧
  handle_tracks_task (final_state (member_calls calls (start_process 100))) ∧
  (length (live_tasks (trace (final_state
     (member_calls calls (start_process 100))))) ≤ 1)%nat.
Proof.
  cbv zeta.
  assert (Hf : frequency_ (instance (start_process 100)) ≠ 0) by (cbn; lia).
  assert (Hp : handle_tracks_task (start_process 100)) by reflexivity.
  assert (Hok : Forall create_gives_handle
    [CallRegisterThread 7 0; CallEnableEvents;
     CallRegisteredCallback
       (mkOS 0 0 (λ _, 99) (λ _, 0) (0, 100) (λ _, 0) (λ _ _ _, 0)) 1;
     TimerIteration
       (mkOS 0 0 (λ _, 99) (λ _, 0) (0, 0) (λ _, 0) (λ _ _ _, 0));
     CallGetTicksSinceLastCall 7;
     CallRegisteredCallback
       (mkOS 0 0 (λ _, 99) (λ _, 0) (0, 101) (λ _, 0) (λ _ _ _, 0)) 1])
    by (repeat constructor; cbn; lia).
  split; [exact Hf|]. split; [exact Hp|]. split; [exact Hok|].
  exact (member_calls_one_timer_task _ _ Hf Hp Hok).
Defined.

Lemma step_shape_registry c p q :
  step_shape c p q →
  threads_ (instance q) `sublist_of` threads_ (instance p) ++ callers [c].
Proof.
  destruct c as [self n| | |self|os n|os n|os|os];
    cbn [step_shape callers omap list_omap]; rewrite ?app_nil_r.
  - now intros ->.
  - now intros ->.
  - now intros ->.
  - now intros ->.
  - now intros [->|[->|(_ & _ & ->)]].
  - now intros [->|[->|(_ & ->)]].
  - now intros [->|[->|(_ & ->)]].
  - intros [->|(_ & ->)]; [done|]. apply after_iteration_frame.
Qed.

(** X14: the registry only ever holds threads that registered themselves:
    after any sequence of member-function calls and timer iterations it is
    the initial registry followed by the callers of [RegisterThread] in call
    order, with some entries taken out; nothing else is ever added and the
    order never changes. *)
Theorem member_calls_registry calls : ∀ p,
  frequency_ (instance p) ≠ 0 →
  threads_ (instance (final_state (member_calls calls p)))
  `sublist_of` threads_ (instance p) ++ callers calls.
Proof.
  induction calls as [|c rest IH]; intros p Hf.
  - cbn. now rewrite app_nil_r.
  - rewrite member_calls_cons.
    pose proof (step_shape_registry c p _ (member_step_shape c p)) as Hq.
    assert (Hfq : frequency_ (instance (final_state (member_step c p))) ≠ 0).
    { revert Hf. generalize (member_step_shape c p).
      generalize (final_state (member_step c p)). intros q Hs Hf.
      destruct c as [self n| | |self|os n|os n|os|os]; cbn [step_shape] in Hs.
      - now subst q.
      - now subst q.
      - now subst q.
      - now subst q.
      - now destruct Hs as [->|[->|(_ & _ & ->)]].
      - now destruct Hs as [->|[->|(_ & ->)]].
      - now destruct Hs as [->|[->|(_ & ->)]].
      - destruct Hs as [->|(_ & ->)]; [done|].
        destruct (after_iteration_frame os p) as (_ & _ & _ & F4 & _).
        now rewrite F4. }
    assert (Hc : callers (c :: rest) = callers [c] ++ callers rest).
    { unfold callers. now rewrite <- omap_app. }
    rewrite Hc, app_assoc.
    destruct (member_step c p) as [a q|msg q]; cbn in Hq, Hfq.
    + etrans; [apply IH, Hfq|]. now apply sublist_app.
    + now apply sublist_inserts_r.
Qed.

Lemma member_calls_registry_witness :
  let os := mkOS 0 0 (λ _, 99) (λ _, 0) (0, 100) (λ _, 0)
              (λ _ t _, if t =? 8 then ESRCH else 0) in
  let calls := [CallRegisterThread 7 0; CallRegisterThread 8 0;
                CallEnableEvents; CallRegisteredCallback os 1;
                TimerIteration os; CallRegisterThread 9 0] in
  frequency_ (instance (start_process 100)) ≠ 0 ∧
  threads_ (instance (final_state (member_calls calls (start_process 100))))
    = [7; 9] ∧
  [7; 9] `sublist_of` threads_ (instance (start_process 100)) ++ callers calls.
Proof.
  cbv zeta.
  set (os := mkOS 0 0 (λ _, 99) (λ _, 0) (0, 100) (λ _, 0)
              (λ _ t _, if t =? 8 then ESRCH else 0)).
  assert (Hf : frequency_ (instance (start_process 100)) ≠ 0) by (cbn; lia).
  split; [exact Hf|]. split; [reflexivity|].
  exact (member_calls_registry
           [CallRegisterThread 7 0; CallRegisterThread 8 0;
            CallEnableEvents; CallRegisteredCallback os 1;
            TimerIteration os; CallRegisterThread 9 0]
           (start_process 100) Hf).
Defined.

(** X15: who writes what.  No member function and no timer iteration ever
    changes the frequency; the shared counter is written by the timer
    thread only (without timer iterations it keeps its value); a thread's
    recorded tick is written by that thread's own [GetTicksSinceLastCall]
    only. *)
Theorem member_calls_writers calls p self :
  frequency_ (instance p) ≠ 0 →
  frequency_ (instance (final_state (member_calls calls p))) =
    frequency_ (instance p) ∧
  (Forall (λ c, ¬ is_timer_iteration c) calls →
   current_tick_ (final_state (member_calls calls p)) = current_tick_ p) ∧
  (Forall (λ c, ¬ is_sample_by self c) calls →
   thread_last_tick (final_state (member_calls calls p)) !! self =
   thread_last_tick p !! self).
Proof.
  intros _. split; [|split].
  - apply (member_calls_invariant
             (λ q, frequency_ (instance q) = frequency_ (instance p))
             (λ _, True)); [|now apply Forall_true|reflexivity].
    intros c q q' _ Hs Hq.
    destruct c as [s n| | |s|os n|os n|os|os]; cbn [step_shape] in Hs.
    + now subst q'.
    + now subst q'.
    + now subst q'.
    + now subst q'.
    + now destruct Hs as [->|[->|(_ & _ & ->)]].
    + now destruct Hs as [->|[->|(_ & ->)]].
    + now destruct Hs as [->|[->|(_ & ->)]].
    + destruct Hs as [->|(_ & ->)]; [done|].
      destruct (after_iteration_frame os q) as (_ & _ & _ & F4 & _).
      now rewrite F4.
  - intros Hok.
    apply (member_calls_invariant
             (λ q, current_tick_ q = current_tick_ p)
             (λ c, ¬ is_timer_iteration c)); [|exact Hok|reflexivity].
    intros c q q' Hc Hs Hq.
    destruct c as [s n| | |s|os n|os n|os|os];
      cbn [step_shape is_timer_iteration] in *.
    + now subst q'.
    + now subst q'.
    + now subst q'.
    + now subst q'.
    + now destruct Hs as [->|[->|(_ & _ & ->)]].
    + now destruct Hs as [->|[->|(_ & ->)]].
    + now destruct Hs as [->|[->|(_ & ->)]].
    + now exfalso.
  - intros Hok.
    apply (member_calls_invariant
             (λ q, thread_last_tick q !! self = thread_last_tick p !! self)
             (λ c, ¬ is_sample_by self c)); [|exact Hok|reflexivity].
    intros c q q' Hc Hs Hq.
    destruct c as [s n| | |s|os n|os n|os|os];
      cbn [step_shape is_sample_by] in *.
    + now subst q'.
    + now subst q'.
    + now subst q'.
    + subst q'. cbn. rewrite lookup_insert_ne by auto. exact Hq.
    + now destruct Hs as [->|[->|(_ & _ & ->)]].
    + now destruct Hs as [->|[->|(_ & ->)]].
    + now destruct Hs as [->|[->|(_ & ->)]].
    + destruct Hs as [->|(_ & ->)]; [done|].
      destruct (after_iteration_frame os q) as (_ & _ & _ & _ & F5 & _).
      now rewrite F5.
Qed.

Lemma member_calls_writers_witness :
  let os := mkOS 0 0 (λ _, 99) (λ _, 0) (0, 100) (λ _, 0) (λ _ _ _, 0) in
  let p := set_thread_last_tick 8 4 (set_current_tick_ 5 (start_process 100)) in
  let calls := [CallRegisterThread 7 0; CallEnableEvents;
                CallGetTicksSinceLastCall 7; CallRegisteredCallback os 1;
                CallDisableEvents; CallUnregisteredCallback os 0;
                CallReset os] in
  frequency_ (instance p) ≠ 0 ∧
  Forall (λ c, ¬ is_timer_iteration c) calls ∧
  Forall (λ c, ¬ is_sample_by 8 c) calls ∧
  frequency_ (instance (final_state (member_calls calls p))) = 100 ∧
  current_tick_ (final_state (member_calls calls p)) = 5 ∧
  thread_last_tick (final_state (member_calls calls p)) !! 8 = Some 4.
Proof.
  cbv zeta.
  set (os := mkOS 0 0 (λ _, 99) (λ _, 0) (0, 100) (λ _, 0) (λ _ _ _, 0)).
  set (p := set_thread_last_tick 8 4 (set_current_tick_ 5 (start_process 100))).
  set (calls := [CallRegisterThread 7 0; CallEnableEvents;
                 CallGetTicksSinceLastCall 7; CallRegisteredCallback os 1;
                 CallDisableEvents; CallUnregisteredCallback os 0;
                 CallReset os]).
  assert (Hf : frequency_ (instance p) ≠ 0) by (cbn; lia).
  assert (H1 : Forall (λ c, ¬ is_timer_iteration c) calls)
    by (repeat constructor; cbn; tauto).
  assert (H2 : Forall (λ c, ¬ is_sample_by 8 c) calls)
    by (repeat constructor; cbn; (tauto || lia)).
  destruct (member_calls_writers calls p 8 Hf) as (W1 & W2 & W3).
  split; [exact Hf|]. split; [exact H1|]. split; [exact H2|].
  split; [exact W1|]. split; [exact (W2 H1)|].
  rewrite (W3 H2). reflexivity.
Defined.

(** X16: the tick variables stay 32-bit values: if the shared counter and
    every thread's recorded tick are within the range of a signed 32-bit
    integer, they still are after any sequence of member-function calls and
    timer iterations. *)
Theorem member_calls_ticks_in_range calls p :
  frequency_ (instance p) ≠ 0 →
  int32_range (current_tick_ p) →
  (∀ self, int32_range (last_tick self p)) →
  int32_range (current_tick_ (final_state (member_calls calls p))) ∧
  ∀ self, int32_range (last_tick self (final_state (member_calls calls p))).
Proof.
  intros _ Hc Hl.
  apply (member_calls_invariant
           (λ q, int32_range (current_tick_ q) ∧
                 ∀ self, int32_range (last_tick self q))
           (λ _, True)); [|now apply Forall_true|now split].
  clear. intros c q q' _ Hs [Hc Hl].
  destruct c as [s n| | |s|os n|os n|os|os]; cbn [step_shape] in Hs.
  - now subst q'.
  - now subst q'.
  - now subst q'.
  - subst q'. split; [exact Hc|]. intros self.
    destruct (decide (s = self)) as [->|Hne].
    + now rewrite last_tick_stored.
    + now rewrite last_tick_other.
  - now destruct Hs as [->|[->|(_ & _ & ->)]].
  - now destruct Hs as [->|[->|(_ & ->)]].
  - now destruct Hs as [->|[->|(_ & ->)]].
  - destruct Hs as [->|(_ & ->)]; [done|].
    destruct (after_iteration_frame os q) as (_ & _ & _ & _ & F5 & F6 & _).
    split; [rewrite F6; apply to_int32_range|].
    intros self. unfold last_tick. rewrite F5. apply Hl.
Qed.

Lemma member_calls_ticks_in_range_witness :
  let os := mkOS 0 0 (λ _, 99) (λ _, 0) (0, 100) (λ _, 0) (λ _ _ _, 0) in
  let p := set_current_tick_ 2147483647 (start_process 100) in
  let calls := [CallRegisteredCallback os 1; TimerIteration os;
                CallGetTicksSinceLastCall 7] in
  frequency_ (instance p) ≠ 0 ∧
  int32_range (current_tick_ p) ∧
  (∀ self, int32_range (last_tick self p)) ∧
  int32_range (current_tick_ (final_state (member_calls calls p))) ∧
  ∀ self, int32_range (last_tick self (final_state (member_calls calls p))).
Proof.
  cbv zeta.
  set (os := mkOS 0 0 (λ _, 99) (λ _, 0) (0, 100) (λ _, 0) (λ _ _ _, 0)).
  set (p := set_current_tick_ 2147483647 (start_process 100)).
  assert (Hf : frequency_ (instance p) ≠ 0) by (cbn; lia).
  assert (Hc : int32_range (current_tick_ p))
    by (unfold int32_range, INT32_MIN, INT32_MAX; cbn; lia).
  assert (Hl : ∀ self, int32_range (last_tick self p)).
  { intros self. unfold last_tick. cbn. rewrite lookup_empty. cbn.
    unfold int32_range, INT32_MIN, INT32_MAX. lia. }
  split; [exact Hf|]. split; [exact Hc|]. split; [exact Hl|].
  exact (member_calls_ticks_in_range _ p Hf Hc Hl).
Defined.

(** ** The timing helper of the test program *)

Lemma TimingTimestamp_minus_mod lhs rhs :
  TimingTimestamp.minus lhs rhs =
  TimingTimestamp.to_uint64
    (TimingTimestamp.nanos lhs - TimingTimestamp.nanos rhs).
Proof.
  unfold TimingTimestamp.minus, TimingTimestamp.nanos,
    TimingTimestamp.to_uint64. cbv zeta.
  rewrite Zmult_mod_idemp_l, Zplus_mod_idemp_l. f_equal. lia.
Qed.

Lemma TimingTimestamp_subtract_nanos_mod lhs rhs :
  TimingTimestamp.subtract_nanos lhs rhs =
  TimingTimestamp.to_uint64
    (TimingTimestamp.nanos lhs - TimingTimestamp.nanos rhs).
Proof.
  unfold TimingTimestamp.subtract_nanos, TimingTimestamp.nanos,
    TimingTimestamp.to_uint64. cbv zeta.
  rewrite Zmult_mod_idemp_l, Zplus_mod_idemp_l, Zminus_mod_idemp_l.
  f_equal. lia.
Qed.

(** X17: the two subtractions of the test program's [TimingTimestamp]
    ([operator-] and [subtract_nanos]) agree on clock readings.  For a later
    reading minus an earlier one both give the exact distance in
    nanoseconds, also when the nanosecond field of the later reading is the
    smaller one; for an earlier reading minus a later one both wrap around
    to 2^64 minus the distance. *)
Theorem TimingTimestamp_difference lhs rhs :
  TimingTimestamp.clock_reading lhs →
  TimingTimestamp.clock_reading rhs →
  TimingTimestamp.minus lhs rhs = TimingTimestamp.subtract_nanos lhs rhs ∧
  (TimingTimestamp.nanos rhs ≤ TimingTimestamp.nanos lhs →
   TimingTimestamp.minus lhs rhs =
   TimingTimestamp.nanos lhs - TimingTimestamp.nanos rhs) ∧
  (TimingTimestamp.nanos lhs < TimingTimestamp.nanos rhs →
   TimingTimestamp.minus lhs rhs =
   2 ^ 64 - (TimingTimestamp.nanos rhs - TimingTimestamp.nanos lhs)).
Proof.
  intros [Hs1 Hn1] [Hs2 Hn2].
  rewrite TimingTimestamp_subtract_nanos_mod, TimingTimestamp_minus_mod.
  split; [reflexivity|].
  unfold TimingTimestamp.to_uint64, TimingTimestamp.nanos in *.
  split; intros H.
  - rewrite Z.mod_small; lia.
  - symmetry. apply (Z.mod_unique_pos _ _ (-1)); lia.
Qed.

Lemma TimingTimestamp_difference_witness :
  let lhs := TimingTimestamp.mkTimespec 12 100 in
  let rhs := TimingTimestamp.mkTimespec 10 999999900 in
  TimingTimestamp.clock_reading lhs ∧
  TimingTimestamp.clock_reading rhs ∧
  TimingTimestamp.nanos rhs ≤ TimingTimestamp.nanos lhs ∧
  TimingTimestamp.minus lhs rhs = 1000000200 ∧
  TimingTimestamp.subtract_nanos lhs rhs = 1000000200 ∧
  TimingTimestamp.minus rhs lhs = 2 ^ 64 - 1000000200.
Proof.
  cbv zeta.
  assert (H1 : TimingTimestamp.clock_reading (TimingTimestamp.mkTimespec 12 100))
    by (unfold TimingTimestamp.clock_reading; cbn; lia).
  assert (H2 : TimingTimestamp.clock_reading
                 (TimingTimestamp.mkTimespec 10 999999900))
    by (unfold TimingTimestamp.clock_reading; cbn; lia).
  assert (H3 : TimingTimestamp.nanos (TimingTimestamp.mkTimespec 10 999999900)
               ≤ TimingTimestamp.nanos (TimingTimestamp.mkTimespec 12 100))
    by (unfold TimingTimestamp.nanos; cbn; lia).
  destruct (TimingTimestamp_difference _ _ H1 H2) as (E & Hle & _).
  destruct (TimingTimestamp_difference _ _ H2 H1) as (_ & _ & Hlt).
  split; [exact H1|]. split; [exact H2|]. split; [exact H3|].
  split; [rewrite (Hle H3); reflexivity|].
  split; [rewrite <- E, (Hle H3); reflexivity|].
  rewrite Hlt by (unfold TimingTimestamp.nanos; cbn; lia). reflexivity.
Defined.

(** X18: [micros_since] is exact only for about 71 minutes: for a clock
    reading [now] not before [base] it returns the elapsed whole
    microseconds reduced modulo 2^32, which is the elapsed time itself as
    long as that is below 4294967296 microseconds. *)
Theorem TimingTimestamp_micros_since now base :
  TimingTimestamp.clock_reading now →
  TimingTimestamp.clock_reading base →
  TimingTimestamp.nanos base ≤ TimingTimestamp.nanos now →
  TimingTimestamp.micros_since now base =
    ((TimingTimestamp.nanos now - TimingTimestamp.nanos base) `div` 1000)
    `mod` 2 ^ 32 ∧
  (TimingTimestamp.nanos now - TimingTimestamp.nanos base < 4294967296000 →
   TimingTimestamp.micros_since now base =
   (TimingTimestamp.nanos now - TimingTimestamp.nanos base) `div` 1000).
Proof.
  intros [Hs1 Hn1] [Hs2 Hn2] H.
  unfold TimingTimestamp.micros_since, TimingTimestamp.nanos_since. cbv zeta.
  rewrite TimingTimestamp_subtract_nanos_mod.
  unfold TimingTimestamp.to_uint64, TimingTimestamp.nanos, to_uint32 in *.
  rewrite (Z.mod_small _ (2 ^ 64)) by lia.
  split; [reflexivity|]. intros Hlt.
  apply Z.mod_small. split; [apply Z.div_pos; lia|].
  apply Z.div_lt_upper_bound; lia.
Qed.

Lemma TimingTimestamp_micros_since_witness :
  let now := TimingTimestamp.mkTimespec 4300 5000 in
  let base := TimingTimestamp.mkTimespec 0 0 in
  TimingTimestamp.clock_reading now ∧
  TimingTimestamp.clock_reading base ∧
  TimingTimestamp.nanos base ≤ TimingTimestamp.nanos now ∧
  TimingTimestamp.micros_since now base = 5032709.
Proof.
  cbv zeta.
  assert (H1 : TimingTimestamp.clock_reading (TimingTimestamp.mkTimespec 4300 5000))
    by (unfold TimingTimestamp.clock_reading; cbn; lia).
  assert (H2 : TimingTimestamp.clock_reading (TimingTimestamp.mkTimespec 0 0))
    by (unfold TimingTimestamp.clock_reading; cbn; lia).
  assert (H3 : TimingTimestamp.nanos (TimingTimestamp.mkTimespec 0 0)
               ≤ TimingTimestamp.nanos (TimingTimestamp.mkTimespec 4300 5000))
    by (unfold TimingTimestamp.nanos; cbn; lia).
  split; [exact H1|]. split; [exact H2|]. split; [exact H3|].
  rewrite (proj1 (TimingTimestamp_micros_since _ _ H1 H2 H3)). reflexivity.
Defined.
